(** * canvas-to-bmp: the BMP encoder [CanvasToBMP.toArrayBuffer]

    A shallow embedding of [src/canvas-to-bmp.ts].  The canvas belongs to
    the browser: its width [w], its height [h] and the bytes [data] of its
    bitmap are the three arguments of the model, and
    [getImageData(0, 0, w, h)] is modelled as the HTML standard has it: an
    [IndexSizeError] on an empty rectangle, else exactly [4 * w * h] bytes.
    The dimensions of a canvas are unsigned, so the statements are about
    [w] and [h] that are not negative.

    Numbers.  The dimensions of a canvas are integers, and while the numbers
    computed from them stay below 2^53 JavaScript's doubles are exact: they
    are modelled in [Z].  [Math.floor (a / 24)] is [Z.div], and the
    wrap-around of the 32-bit operations ([>>>], [setUint32], ...) is written
    out.  The typed-array view [Uint32Array] is read in little-endian byte
    order, the order for which the method's own comment ("get ABGR") holds.

    Exceptions.  The exceptions the method can raise come from
    [getImageData] (an [IndexSizeError]) and from the typed-array
    constructors and the [DataView] setters ([RangeError]s).  A run is a
    function from the state of the method's mutable locals to an exception
    or a new state.

    [toBlob] and [toDataURL] are modelled on top of [toArrayBuffer]; the
    browser's [btoa] is base64 over the standard alphabet.  The constructor
    and the loaders [fromDataURL] and [fromURI], which only hand a canvas or
    an image to the browser, are left out. *)

From Stdlib Require Import ZArith Lia.
From Stdlib Require Import Strings.Byte.
From Stdlib Require Strings.Ascii Strings.String.
From stdpp Require Import base list.
Import Ascii.AsciiSyntax String.StringSyntax.
Delimit Scope string_scope with string.
Delimit Scope char_scope with char.

Local Open Scope Z_scope.

(** ** Bytes and little-endian words *)

Definition Z_of_byte (b : byte) : Z := Z.of_N (Byte.to_N b).

(** [ToUint8]: the byte a typed array or a [DataView] stores for the
    integer [z]. *)
Definition byte_of_Z (z : Z) : byte :=
  match Byte.of_N (Z.to_N (z mod 256)) with
  | Some b => b
  | None => x00
  end.

(** The [n] little-endian bytes of [v]. *)
Fixpoint le_bytes (n : nat) (v : Z) : list byte :=
  match n with
  | O => []
  | S n' => byte_of_Z v :: le_bytes n' (v / 256)
  end.

(** The unsigned integer a little-endian byte sequence stands for. *)
Fixpoint le_value (bs : list byte) : Z :=
  match bs with
  | [] => 0
  | b :: bs' => Z_of_byte b + 256 * le_value bs'
  end.

(** What [DataView.getUint16 (off, true)] and [DataView.getUint32 (off, true)]
    read back from a buffer; used to state the header claims. *)
Definition read_le (n : nat) (off : nat) (buf : list byte) : option Z :=
  if decide (off + n <= length buf)%nat
  then Some (le_value (take n (drop off buf)))
  else None.

Definition getUint16 := read_le 2.
Definition getUint32 := read_le 4.

(** ** Exceptions and the state of a call *)

(** [RangeError] is the typed arrays' and the [DataView]'s; [IndexSizeError]
    is the [DOMException] of [getImageData] on an empty source rectangle. *)
Inductive exn : Type := RangeError | IndexSizeError.

Definition result (A : Type) : Type := (exn + A)%type.

(** The mutable locals of [toArrayBuffer]: the buffer behind [file] and
    [view], the write cursor [pos] and the read cursor [s] into [data32]. *)
Record state : Type := mkState {
  file : list byte;
  pos : Z;
  s : Z
}.

Definition M (A : Type) : Type := state -> result (A * state).

Definition ret {A : Type} (a : A) : M A := fun st => inr (a, st).

Definition bind {A B : Type} (m : M A) (k : A -> M B) : M B :=
  fun st =>
    match m st with
    | inl e => inl e
    | inr (a, st') => k a st'
    end.

Declare Scope run_scope.
Delimit Scope run_scope with run.
Bind Scope run_scope with M.
Notation "'let*' x := m 'in' k" := (bind m (fun x => k))
  (at level 10, x name, m at level 100, k at level 200) : run_scope.
Notation "m ;; k" := (bind m (fun _ => k))
  (at level 100, k at level 200, right associativity) : run_scope.

(** ** Typed arrays and the DataView *)

(** [new ArrayBuffer (n)]: [n] zero bytes; a negative length is a
    [RangeError].  Running out of memory is not modelled. *)
Definition ArrayBuffer (n : Z) : result (list byte) :=
  if n <? 0 then inl RangeError else inr (replicate (Z.to_nat n) x00).

(** [new Uint32Array (buffer)]: a [RangeError] unless the byte length is a
    multiple of 4; the view aliases the bytes, which the method never
    writes. *)
Definition Uint32Array (data : list byte) : result (list byte) :=
  if Z.of_nat (length data) mod 4 =? 0 then inr data else inl RangeError.

(** [data32[i]]: the 32-bit word at element [i], or [None] for JavaScript's
    [undefined] when [i] is out of range. *)
Definition data32_get (data32 : list byte) (i : Z) : option Z :=
  if i <? 0 then None
  else match drop (4 * Z.to_nat i) data32 with
       | b0 :: b1 :: b2 :: b3 :: _ => Some (le_value [b0; b1; b2; b3])
       | _ => None
       end.

(** Storing bytes at consecutive indices of the buffer. *)
Fixpoint store (off : nat) (bs : list byte) (buf : list byte) : list byte :=
  match bs with
  | [] => buf
  | b :: bs' => store (S off) bs' (<[off := b]> buf)
  end.

(** [view.setUintN (off, v, true)]: out of the view is a [RangeError], else
    the low [n] bytes of [v] are stored in little-endian order. *)
Definition setUint (n : nat) (off v : Z) : M unit :=
  fun st =>
    if (0 <=? off) && (off + Z.of_nat n <=? Z.of_nat (length (file st)))
    then inr (tt, mkState (store (Z.to_nat off) (le_bytes n v) (file st))
                          (pos st) (s st))
    else inl RangeError.

Definition setUint8 := setUint 1.
Definition setUint16 := setUint 2.
Definition setUint32 := setUint 4.

(** ** The method *)

Definition headerSize : Z := 14.
Definition DIBHeaderSize : Z := 40.

(** [Math.floor((24 * w + 23) / 24) * 3], "row length incl. padding". *)
Definition stride (w : Z) : Z := (24 * w + 23) / 24 * 3.

(** The helpers that write at the cursor and move it. *)
Definition setU16 (v : Z) : M unit :=
  fun st =>
    match setUint16 (pos st) v st with
    | inl e => inl e
    | inr (_, st') => inr (tt, mkState (file st') (pos st' + 2) (s st'))
    end.

Definition setU32 (v : Z) : M unit :=
  fun st =>
    match setUint32 (pos st) v st with
    | inl e => inl e
    | inr (_, st') => inr (tt, mkState (file st') (pos st' + 4) (s st'))
    end.

(** [pos += n]. *)
Definition skip (n : Z) : M unit :=
  fun st => inr (tt, mkState (file st) (pos st + n) (s st)).

(** [data32[s++]]. *)
Definition next_word (data32 : list byte) : M (option Z) :=
  fun st => inr (data32_get data32 (s st), mkState (file st) (pos st) (s st + 1)).

(** [v >>> k] on a number, [ToUint32] first. *)
Definition ushr (v k : Z) : Z := Z.shiftr (v mod 2 ^ 32) k.

(** The three channels of the word [v = data32[s++]].  For [undefined],
    [v % 256] is [NaN] and [(v >>> k) % 256] is [0]; [setUint8] stores both
    as the byte 0. *)
Definition red (v : option Z) : Z :=
  match v with Some n => Z.rem n 256 | None => 0 end.
Definition green (v : option Z) : Z :=
  match v with Some n => Z.rem (ushr n 8) 256 | None => 0 end.
Definition blue (v : option Z) : Z :=
  match v with Some n => Z.rem (ushr n 16) 256 | None => 0 end.

(** A counted loop: [body] at [x], [x + step], ..., [n] times. *)
Fixpoint for_loop (n : nat) (x step : Z) (body : Z -> M unit) : M unit :=
  match n with
  | O => ret tt
  | S n' => (body x ;; for_loop n' (x + step) step body)%run
  end.

(** The number of times [for (x = from; x < to; x += step)] runs its body. *)
Definition trips (from to step : Z) : nat :=
  Z.to_nat ((to - from + step - 1) / step).

Definition for_lt (from to step : Z) (body : Z -> M unit) : M unit :=
  for_loop (trips from to step) from step body.

(** The body of the inner loop, at row offset [p] and column offset [x]. *)
Definition write_pixel (data32 : list byte) (p x : Z) : M unit :=
  (let* v := next_word data32 in
   let r := red v in
   let g := green v in
   let b := blue v in
   setUint8 (p + x) b ;;
   setUint8 (p + x + 1) g ;;
   setUint8 (p + x + 2) r)%run.

(** The body of the outer loop, for source row [y]. *)
Definition write_row (data32 : list byte) (w3 h strd y : Z) : M unit :=
  let p := headerSize + DIBHeaderSize + (h - y - 1) * strd in
  for_lt 0 w3 3 (write_pixel data32 p).

(** Everything after the declarations: both headers, then the bitmap. *)
Definition write_file (data32 : list byte) (w h : Z) : M unit :=
  let w3 := w * 3 in
  let strd := stride w in
  let pixelArraySize := strd * h in
  let fileLength := headerSize + DIBHeaderSize + pixelArraySize in
  (setU16 19778 ;;                          (* 0x4d42, BM *)
   setU32 fileLength ;;
   skip 4 ;;
   setU32 (headerSize + DIBHeaderSize) ;;
   setU32 DIBHeaderSize ;;
   setU32 w ;;
   setU32 (h mod 2 ^ 32) ;;                 (* h >>> 0 *)
   setU16 1 ;;
   setU16 24 ;;
   setU32 0 ;;
   setU32 pixelArraySize ;;
   setU32 11811 ;;                          (* 0x2e23 *)
   setU32 11811 ;;
   skip 8 ;;
   for_lt 0 h 1 (write_row data32 w3 h strd))%run.

(** [this.canvas.getContext("2d").getImageData(0, 0, w, h).data] on a canvas
    of width [w] and height [h] whose bitmap holds the bytes [bitmap], four a
    pixel, rows first: an [IndexSizeError] when [w] or [h] is 0, else the
    [4 * w * h] bytes of the source rectangle, a pixel the bitmap does not
    hold being transparent black. *)
Definition getImageData (w h : Z) (bitmap : list byte) : result (list byte) :=
  if (w =? 0) || (h =? 0) then inl IndexSizeError
  else
    let n := Z.to_nat (Z.abs w * Z.abs h * 4) in
    inr (take n (bitmap ++ replicate n x00)).

(** The call from line 45 on, on the bytes [idata] that [getImageData]
    returned, down to the final state of its locals. *)
Definition run_from_image (w h : Z) (idata : list byte) : result state :=
  match Uint32Array idata with
  | inl e => inl e
  | inr data32 =>
      let fileLength := headerSize + DIBHeaderSize + stride w * h in
      match ArrayBuffer fileLength with
      | inl e => inl e
      | inr buf =>
          match write_file data32 w h (mkState buf 0 0) with
          | inl e => inl e
          | inr (_, st) => inr st
          end
      end
  end.

(** The call, down to the final state of its locals; [data] is the bitmap
    of the canvas. *)
Definition run_toArrayBuffer (w h : Z) (data : list byte) : result state :=
  match getImageData w h data with
  | inl e => inl e
  | inr idata => run_from_image w h idata
  end.

(** [toArrayBuffer]: the returned [file], or the exception raised. *)
Definition toArrayBuffer (w h : Z) (data : list byte) : result (list byte) :=
  match run_toArrayBuffer w h data with
  | inl e => inl e
  | inr st => inr (file st)
  end.

(** The closed form of the file, against which the run is characterised:
    the 54 header bytes, then the bitmap rows, last source row first. *)

Definition bmp_header (w h : Z) : list byte :=
  le_bytes 2 19778 ++ le_bytes 4 (54 + stride w * h) ++ replicate 4 x00 ++
  le_bytes 4 54 ++
  le_bytes 4 40 ++ le_bytes 4 w ++ le_bytes 4 (h mod 2 ^ 32) ++
  le_bytes 2 1 ++ le_bytes 2 24 ++ le_bytes 4 0 ++
  le_bytes 4 (stride w * h) ++ le_bytes 4 11811 ++ le_bytes 4 11811 ++
  replicate 8 x00.

Definition bgr (v : option Z) : list byte :=
  [byte_of_Z (blue v); byte_of_Z (green v); byte_of_Z (red v)].

(** The bytes of [n] pixels read from [data32] at element [s0] on. *)
Fixpoint row_bytes (data32 : list byte) (s0 : Z) (n : nat) : list byte :=
  match n with
  | O => []
  | S n' => bgr (data32_get data32 s0) ++ row_bytes data32 (s0 + 1) n'
  end.

(** [n] rows of [w] pixels read from element [s0] on, in reverse order. *)
Fixpoint rows_rev (data32 : list byte) (w : nat) (s0 : Z) (n : nat) : list byte :=
  match n with
  | O => []
  | S n' => rows_rev data32 w (s0 + Z.of_nat w) n' ++ row_bytes data32 s0 w
  end.

Definition bitmap (data32 : list byte) (w h : Z) : list byte :=
  rows_rev data32 (Z.to_nat w) 0 (Z.to_nat h).

(** The stride as the documentation words it, [ceil (w * 3 / 4) * 4]: the
    row length [w * 3] rounded up to a multiple of 4. *)
Definition padded_stride (w : Z) : Z := (w * 3 + 3) / 4 * 4.

(** The inputs the documentation calls valid. *)
Definition valid_input (w h : Z) (data : list byte) : Prop :=
  1 <= w /\ 1 <= h /\ Z.of_nat (length data) = w * h * 4.

(** The sample inputs of the documentation's scenarios. *)
Definition px_red : list byte := [xff; x00; x00; xff].
Definition px_red_green : list byte :=
  [xff; x00; x00; xff; x00; xff; x00; xff].

(** Two pixel buffers that agree on the red, green and blue byte of every
    pixel; the alpha bytes are free. *)
Inductive same_rgb : list byte -> list byte -> Prop :=
| same_rgb_nil : same_rgb [] []
| same_rgb_pixel r g b a a' l l' :
    same_rgb l l' -> same_rgb (r :: g :: b :: a :: l) (r :: g :: b :: a' :: l').

(** ** The other output formats: [toBlob] and [toDataURL] *)

(** A [Blob]: its bytes and its media type. *)
Record Blob : Type := mkBlob {
  blob_bytes : list byte;
  blob_type : String.string
}.

(** [new Blob([this.toArrayBuffer()], {type: "image/bmp"})]. *)
Definition toBlob (w h : Z) (data : list byte) : result Blob :=
  match toArrayBuffer w h data with
  | inl e => inl e
  | inr buf => inr (mkBlob buf "image/bmp"%string)
  end.

(** [String.fromCharCode (buffer[i])]; an index out of range reads
    [undefined], whose character is the one of code 0. *)
Definition fromCharCode (v : option byte) : Ascii.ascii :=
  match v with
  | Some b => Ascii.ascii_of_byte b
  | None => Ascii.ascii_of_byte x00
  end.

(** [for (let i = 0; i < buffer.length; i++) bs += String.fromCharCode(buffer[i])],
    with [n] turns left, at index [i]. *)
Fixpoint binary_string (n i : nat) (buffer : list byte) (bs : String.string)
  : String.string :=
  match n with
  | O => bs
  | S n' =>
      binary_string n' (S i) buffer
        (String.append bs (String.String (fromCharCode (buffer !! i)) String.EmptyString))
  end.

Definition char_code (c : Ascii.ascii) : Z := Z.of_N (Ascii.N_of_ascii c).

Definition b64_alphabet : String.string :=
  "ABCDEFGHIJKLMNOPQRSTUVWXYZabcdefghijklmnopqrstuvwxyz0123456789+/"%string.

(** The base64 digit of the 6-bit value [n]. *)
Definition b64_char (n : Z) : Ascii.ascii :=
  match String.get (Z.to_nat n) b64_alphabet with
  | Some c => c
  | None => "="%char
  end.

(** The browser's [btoa] on a string of 8-bit characters: base64 with the
    alphabet above, three characters to four digits, the last group padded
    with [=]. *)
Fixpoint btoa (bs : String.string) : String.string :=
  match bs with
  | String.EmptyString => String.EmptyString
  | String.String a String.EmptyString =>
      let x := char_code a in
      String.String (b64_char (x / 4))
        (String.String (b64_char (x mod 4 * 16)) "=="%string)
  | String.String a (String.String b String.EmptyString) =>
      let x := char_code a in
      let y := char_code b in
      String.String (b64_char (x / 4))
        (String.String (b64_char (x mod 4 * 16 + y / 16))
           (String.String (b64_char (y mod 16 * 4)) "="%string))
  | String.String a (String.String b (String.String c rest)) =>
      let x := char_code a in
      let y := char_code b in
      let z := char_code c in
      String.String (b64_char (x / 4))
        (String.String (b64_char (x mod 4 * 16 + y / 16))
           (String.String (b64_char (y mod 16 * 4 + z / 64))
              (String.String (b64_char (z mod 64)) (btoa rest))))
  end.

(** [toDataURL]: the file's bytes as a string of characters, in base64
    behind the data-URI prefix; the exception of [toArrayBuffer] otherwise. *)
Definition toDataURL (w h : Z) (data : list byte) : result String.string :=
  match toArrayBuffer w h data with
  | inl e => inl e
  | inr buffer =>
      let bs := binary_string (length buffer) 0 buffer String.EmptyString in
      inr (String.append "data:image/bmp;base64,"%string (btoa bs))
  end.

(** Reading base64 back, to state that a data URI carries the file: the
    value of a digit, and the characters of a padded base64 text. *)
Fixpoint index_of (c : Ascii.ascii) (alphabet : String.string) (i : Z)
  : option Z :=
  match alphabet with
  | String.EmptyString => None
  | String.String d rest =>
      if Ascii.eqb c d then Some i else index_of c rest (i + 1)
  end.

Definition b64_index (c : Ascii.ascii) : option Z := index_of c b64_alphabet 0.

Definition char_of_code (n : Z) : Ascii.ascii := Ascii.ascii_of_N (Z.to_N n).

Fixpoint b64_decode (text : String.string) : option String.string :=
  match text with
  | String.EmptyString => Some String.EmptyString
  | String.String c0 (String.String c1 (String.String c2 (String.String c3 rest))) =>
      match b64_index c0, b64_index c1 with
      | Some i0, Some i1 =>
          let a := char_of_code (i0 * 4 + i1 / 16) in
          if Ascii.eqb c2 "="%char then
            if Ascii.eqb c3 "="%char then
              match rest with
              | String.EmptyString => Some (String.String a String.EmptyString)
              | _ => None
              end
            else None
          else
            match b64_index c2 with
            | Some i2 =>
                let b := char_of_code (i1 mod 16 * 16 + i2 / 4) in
                if Ascii.eqb c3 "="%char then
                  match rest with
                  | String.EmptyString => Some (String.String a (String.String b String.EmptyString))
                  | _ => None
                  end
                else
                  match b64_index c3 with
                  | Some i3 =>
                      let c := char_of_code (i2 mod 4 * 64 + i3) in
                      match b64_decode rest with
                      | Some tl =>
                          Some (String.String a (String.String b (String.String c tl)))
                      | None => None
                      end
                  | None => None
                  end
            | None => None
            end
      | _, _ => None
      end
  | _ => None
  end.

(** Whether every character of a text is a base64 digit (none is [=]). *)
Fixpoint all_digits (text : String.string) : bool :=
  match text with
  | String.EmptyString => true
  | String.String c rest =>
      match b64_index c with
      | Some _ => all_digits rest
      | None => false
      end
  end.

(** ** Bytes and words *)

Lemma Z_of_byte_range (b : byte) : 0 <= Z_of_byte b < 256.
Proof.
  unfold Z_of_byte. pose proof (Byte.to_N_bounded b). lia.
Qed.

Lemma byte_of_Z_of_byte (b : byte) : byte_of_Z (Z_of_byte b) = b.
Proof.
  unfold byte_of_Z. pose proof (Z_of_byte_range b) as Hb.
  rewrite Z.mod_small by lia. unfold Z_of_byte.
  rewrite N2Z.id, Byte.of_to_N. reflexivity.
Qed.

Lemma Z_of_byte_of_Z (z : Z) : Z_of_byte (byte_of_Z z) = z mod 256.
Proof.
  unfold byte_of_Z, Z_of_byte.
  pose proof (Z.mod_pos_bound z 256 ltac:(lia)) as Hz.
  destruct (Byte.of_N (Z.to_N (z mod 256))) as [b|] eqn:E.
  - apply Byte.to_of_N in E. rewrite E. lia.
  - apply Byte.of_N_None_iff in E. lia.
Qed.

Lemma byte_of_Z_mod (z : Z) : byte_of_Z (z mod 256) = byte_of_Z z.
Proof.
  unfold byte_of_Z. rewrite Z.mod_mod by lia. reflexivity.
Qed.

Lemma length_le_bytes (n : nat) (v : Z) : length (le_bytes n v) = n.
Proof.
  revert v. induction n as [|n IH]; intros v; simpl; [reflexivity|].
  rewrite IH. reflexivity.
Qed.

Lemma le_value_le_bytes (n : nat) (v : Z) :
  le_value (le_bytes n v) = v mod 2 ^ (8 * Z.of_nat n).
Proof.
  revert v. induction n as [|n IH]; intros v.
  - simpl. rewrite Z.mod_1_r. reflexivity.
  - cbn [le_bytes le_value]. rewrite IH, Z_of_byte_of_Z.
    replace (8 * Z.of_nat (S n)) with (8 + 8 * Z.of_nat n) by lia.
    rewrite Z.pow_add_r by lia. change (2 ^ 8) with 256.
    rewrite Z.rem_mul_r by lia. reflexivity.
Qed.

Lemma le_value_range (bs : list byte) :
  0 <= le_value bs < 2 ^ (8 * Z.of_nat (length bs)).
Proof.
  induction bs as [|b bs IH].
  - simpl. lia.
  - cbn [le_value length]. pose proof (Z_of_byte_range b).
    replace (8 * Z.of_nat (S (length bs))) with (8 + 8 * Z.of_nat (length bs))
      by lia.
    rewrite Z.pow_add_r by lia. change (2 ^ 8) with 256. nia.
Qed.

(** The stride of the method is the unpadded row length. *)
Lemma stride_eq (w : Z) : stride w = 3 * w.
Proof.
  unfold stride.
  replace (24 * w + 23) with (w * 24 + 23) by lia.
  rewrite Z.div_add_l by lia. change (23 / 24) with 0. lia.
Qed.

Lemma low_byte (a q : Z) : 0 <= a < 256 -> (a + 256 * q) mod 256 = a.
Proof. intros Ha. Z.div_mod_to_equations. lia. Qed.

Lemma high_bytes (a q k : Z) :
  0 < k -> 0 <= a < k -> (a + k * q) / k = q.
Proof. intros Hk Ha. Z.div_mod_to_equations. nia. Qed.

Section Channels.
Variables b0 b1 b2 b3 : byte.

Lemma word_bytes :
  le_value [b0; b1; b2; b3] =
    Z_of_byte b0 + 256 * (Z_of_byte b1 + 256 * (Z_of_byte b2 + 256 * Z_of_byte b3)).
Proof. cbn [le_value]. lia. Qed.

Lemma red_word : byte_of_Z (red (Some (le_value [b0; b1; b2; b3]))) = b0.
Proof.
  unfold red. rewrite word_bytes.
  pose proof (Z_of_byte_range b0). pose proof (Z_of_byte_range b1).
  pose proof (Z_of_byte_range b2). pose proof (Z_of_byte_range b3).
  rewrite Z.rem_mod_nonneg by lia.
  rewrite low_byte by lia. apply byte_of_Z_of_byte.
Qed.

Lemma green_word : byte_of_Z (green (Some (le_value [b0; b1; b2; b3]))) = b1.
Proof.
  unfold green, ushr. rewrite word_bytes.
  pose proof (Z_of_byte_range b0). pose proof (Z_of_byte_range b1).
  pose proof (Z_of_byte_range b2). pose proof (Z_of_byte_range b3).
  rewrite (Z.mod_small _ (2 ^ 32)) by lia.
  rewrite Z.shiftr_div_pow2 by lia. change (2 ^ 8) with 256.
  rewrite high_bytes by lia.
  rewrite Z.rem_mod_nonneg by lia.
  rewrite low_byte by lia. apply byte_of_Z_of_byte.
Qed.

Lemma blue_word : byte_of_Z (blue (Some (le_value [b0; b1; b2; b3]))) = b2.
Proof.
  unfold blue, ushr. rewrite word_bytes.
  pose proof (Z_of_byte_range b0). pose proof (Z_of_byte_range b1).
  pose proof (Z_of_byte_range b2). pose proof (Z_of_byte_range b3).
  rewrite (Z.mod_small _ (2 ^ 32)) by lia.
  rewrite Z.shiftr_div_pow2 by lia. change (2 ^ 16) with (256 * 256).
  replace (Z_of_byte b0 + 256 * (Z_of_byte b1 + 256 * (Z_of_byte b2 + 256 * Z_of_byte b3)))
    with ((Z_of_byte b0 + 256 * Z_of_byte b1)
          + 256 * 256 * (Z_of_byte b2 + 256 * Z_of_byte b3)) by lia.
  rewrite high_bytes by lia.
  rewrite Z.rem_mod_nonneg by lia.
  rewrite low_byte by lia. apply byte_of_Z_of_byte.
Qed.
End Channels.

(** ** Storing into the buffer *)

Lemma length_store (bs : list byte) :
  forall off buf, length (store off bs buf) = length buf.
Proof.
  induction bs as [|b bs IH]; intros off buf; simpl; [reflexivity|].
  rewrite IH. apply length_insert.
Qed.

Lemma store_app (a b : list byte) :
  forall off buf,
    store off (a ++ b) buf = store (off + length a) b (store off a buf).
Proof.
  induction a as [|x a IH]; intros off buf; simpl.
  - rewrite Nat.add_0_r. reflexivity.
  - rewrite IH. f_equal. lia.
Qed.

Lemma insert_store (bs : list byte) :
  forall off i x buf,
    (i < off \/ off + length bs <= i)%nat ->
    <[i := x]> (store off bs buf) = store off bs (<[i := x]> buf).
Proof.
  induction bs as [|b bs IH]; intros off i x buf Hi; simpl in *; [reflexivity|].
  rewrite IH by lia. f_equal. apply list_insert_insert_ne. lia.
Qed.

Lemma store_commute (a : list byte) :
  forall i j b buf,
    (i + length a <= j \/ j + length b <= i)%nat ->
    store i a (store j b buf) = store j b (store i a buf).
Proof.
  induction a as [|x a IH]; intros i j b buf Hij; simpl in *; [reflexivity|].
  rewrite insert_store by lia. apply IH. lia.
Qed.

Lemma store_app_l (bs : list byte) :
  forall off l1 l2,
    (off + length bs <= length l1)%nat ->
    store off bs (l1 ++ l2) = store off bs l1 ++ l2.
Proof.
  induction bs as [|b bs IH]; intros off l1 l2 Hoff; simpl in *; [reflexivity|].
  rewrite insert_app_l by lia. apply IH. rewrite length_insert. lia.
Qed.

Lemma store_all (bs : list byte) :
  forall l1 l2, length l2 = length bs -> store (length l1) bs (l1 ++ l2) = l1 ++ bs.
Proof.
  induction bs as [|b bs IH]; intros l1 l2 Hlen; simpl in *.
  - destruct l2; [reflexivity|discriminate].
  - destruct l2 as [|c l2]; [discriminate|].
    pose proof (insert_app_r l1 (c :: l2) 0 b) as E.
    rewrite Nat.add_0_r in E. rewrite E. cbn [insert list_insert].
    replace (l1 ++ b :: l2) with ((l1 ++ [b]) ++ l2)
      by (rewrite <- app_assoc; reflexivity).
    replace (S (length l1)) with (length (l1 ++ [b]))
      by (rewrite length_app; simpl; lia).
    rewrite IH by (simpl in Hlen; lia).
    rewrite <- app_assoc. reflexivity.
Qed.

(** ** Running the primitives *)

Lemma setUint_ok (n : nat) (off v : Z) (st : state) :
  0 <= off -> off + Z.of_nat n <= Z.of_nat (length (file st)) ->
  setUint n off v st =
    inr (tt, mkState (store (Z.to_nat off) (le_bytes n v) (file st))
                     (pos st) (s st)).
Proof.
  intros H0 H1. unfold setUint.
  destruct (0 <=? off) eqn:E0; [|lia].
  destruct (off + Z.of_nat n <=? Z.of_nat (length (file st))) eqn:E1; [|lia].
  reflexivity.
Qed.

Lemma setU16_ok (v : Z) (st : state) :
  0 <= pos st -> pos st + 2 <= Z.of_nat (length (file st)) ->
  setU16 v st =
    inr (tt, mkState (store (Z.to_nat (pos st)) (le_bytes 2 v) (file st))
                     (pos st + 2) (s st)).
Proof.
  intros H0 H1. unfold setU16, setUint16.
  rewrite setUint_ok by (simpl; lia). reflexivity.
Qed.

Lemma setU32_ok (v : Z) (st : state) :
  0 <= pos st -> pos st + 4 <= Z.of_nat (length (file st)) ->
  setU32 v st =
    inr (tt, mkState (store (Z.to_nat (pos st)) (le_bytes 4 v) (file st))
                     (pos st + 4) (s st)).
Proof.
  intros H0 H1. unfold setU32, setUint32.
  rewrite setUint_ok by (simpl; lia). reflexivity.
Qed.

Lemma write_pixel_ok (data32 : list byte) (p x : Z) (st : state) :
  0 <= p + x -> p + x + 3 <= Z.of_nat (length (file st)) ->
  write_pixel data32 p x st =
    inr (tt, mkState (store (Z.to_nat (p + x)) (bgr (data32_get data32 (s st)))
                            (file st))
                     (pos st) (s st + 1)).
Proof.
  intros H0 H1. unfold write_pixel, bind, next_word, setUint8.
  rewrite setUint_ok by (simpl; lia). cbn [file pos s].
  rewrite setUint_ok by (cbn [file]; rewrite ?length_store; simpl; lia).
  cbn [file pos s].
  rewrite setUint_ok by (cbn [file]; rewrite ?length_store; simpl; lia).
  cbn [file pos s]. unfold bgr. cbn [store le_bytes].
  replace (Z.to_nat (p + x + 1)) with (S (Z.to_nat (p + x))) by lia.
  replace (Z.to_nat (p + x + 2)) with (S (S (Z.to_nat (p + x)))) by lia.
  reflexivity.
Qed.

Lemma length_row_bytes (data32 : list byte) (n : nat) :
  forall s0, length (row_bytes data32 s0 n) = (3 * n)%nat.
Proof.
  induction n as [|n IH]; intros s0; simpl; [reflexivity|].
  rewrite IH. lia.
Qed.

Lemma length_rows_rev (data32 : list byte) (w n : nat) :
  forall s0, length (rows_rev data32 w s0 n) = (n * (3 * w))%nat.
Proof.
  induction n as [|n IH]; intros s0; simpl; [reflexivity|].
  rewrite length_app, IH, length_row_bytes. lia.
Qed.

(** ** Running the loops *)

Lemma pixels_loop_ok (data32 : list byte) (p : Z) (n : nat) :
  forall (i : Z) (st : state),
    0 <= p -> 0 <= i ->
    p + 3 * (i + Z.of_nat n) <= Z.of_nat (length (file st)) ->
    for_loop n (3 * i) 3 (write_pixel data32 p) st =
      inr (tt, mkState (store (Z.to_nat (p + 3 * i))
                              (row_bytes data32 (s st) n) (file st))
                       (pos st) (s st + Z.of_nat n)).
Proof.
  induction n as [|n IH]; intros i st Hp Hi Hlen.
  - simpl. unfold ret. destruct st as [f q c]; cbn [file pos s].
    rewrite Z.add_0_r. reflexivity.
  - cbn [for_loop]. unfold bind at 1.
    rewrite write_pixel_ok by lia.
    replace (3 * i + 3) with (3 * (i + 1)) by lia.
    rewrite IH by (cbn [file]; rewrite ?length_store; lia).
    cbn [file pos s row_bytes].
    rewrite store_app. do 3 f_equal; [|lia].
    f_equal. unfold bgr. simpl length. lia.
Qed.

Lemma trips_step3 (w : Z) : 0 <= w -> trips 0 (w * 3) 3 = Z.to_nat w.
Proof.
  intros Hw. unfold trips. f_equal.
  replace (w * 3 - 0 + 3 - 1) with (w * 3 + 2) by lia.
  rewrite Z.div_add_l by lia. change (2 / 3) with 0. lia.
Qed.

Lemma trips_step1 (h : Z) : trips 0 h 1 = Z.to_nat h.
Proof.
  unfold trips. f_equal. rewrite Z.div_1_r. lia.
Qed.

Lemma write_row_ok (data32 : list byte) (w h y : Z) (st : state) :
  0 <= w -> 0 <= y < h ->
  54 + 3 * w * h <= Z.of_nat (length (file st)) ->
  write_row data32 (w * 3) h (3 * w) y st =
    inr (tt, mkState (store (Z.to_nat (54 + (h - y - 1) * (3 * w)))
                            (row_bytes data32 (s st) (Z.to_nat w)) (file st))
                     (pos st) (s st + w)).
Proof.
  intros Hw Hy Hlen. unfold write_row, for_lt, headerSize, DIBHeaderSize.
  rewrite trips_step3 by lia.
  change (14 + 40) with 54.
  change 0 with (3 * 0) at 1.
  assert (0 <= (h - y - 1) * (3 * w)) by nia.
  assert ((h - y - 1) * (3 * w) + 3 * w <= 3 * w * h) by nia.
  rewrite pixels_loop_ok by lia.
  do 3 f_equal; [f_equal; lia | lia].
Qed.

Lemma rows_loop_ok (data32 : list byte) (w h : Z) (n : nat) :
  forall (y : Z) (st : state),
    0 <= w -> 0 <= y -> y + Z.of_nat n <= h ->
    54 + 3 * w * h <= Z.of_nat (length (file st)) ->
    for_loop n y 1 (write_row data32 (w * 3) h (3 * w)) st =
      inr (tt, mkState (store (Z.to_nat (54 + (h - y - Z.of_nat n) * (3 * w)))
                              (rows_rev data32 (Z.to_nat w) (s st) n) (file st))
                       (pos st) (s st + Z.of_nat n * w)).
Proof.
  induction n as [|n IH]; intros y st Hw Hy Hn Hlen.
  - simpl. unfold ret. destruct st as [f q c]; cbn [file pos s].
    rewrite Z.add_0_r. reflexivity.
  - cbn [for_loop]. unfold bind at 1.
    rewrite write_row_ok by lia.
    rewrite IH by (cbn [file]; rewrite ?length_store; lia).
    cbn [file pos s rows_rev].
    rewrite store_app, length_rows_rev.
    assert (0 <= (h - y - Z.of_nat (S n)) * (3 * w)) by nia.
    assert ((h - (y + 1) - Z.of_nat n) = h - y - Z.of_nat (S n)) as -> by lia.
    assert ((Z.to_nat (54 + (h - y - Z.of_nat (S n)) * (3 * w))
             + n * (3 * Z.to_nat w))%nat
            = Z.to_nat (54 + (h - y - 1) * (3 * w))) as -> by nia.
    rewrite Z2Nat.id by lia.
    rewrite store_commute.
    + do 3 f_equal. nia.
    + left. rewrite length_rows_rev. nia.
Qed.

(** ** Running the whole method *)

Lemma bind_setU16 (v : Z) (k : unit -> M unit) (st : state) :
  0 <= pos st -> pos st + 2 <= Z.of_nat (length (file st)) ->
  bind (setU16 v) k st =
    k tt (mkState (store (Z.to_nat (pos st)) (le_bytes 2 v) (file st))
                  (pos st + 2) (s st)).
Proof. intros H0 H1. unfold bind. rewrite setU16_ok by lia. reflexivity. Qed.

Lemma bind_setU32 (v : Z) (k : unit -> M unit) (st : state) :
  0 <= pos st -> pos st + 4 <= Z.of_nat (length (file st)) ->
  bind (setU32 v) k st =
    k tt (mkState (store (Z.to_nat (pos st)) (le_bytes 4 v) (file st))
                  (pos st + 4) (s st)).
Proof. intros H0 H1. unfold bind. rewrite setU32_ok by lia. reflexivity. Qed.

Lemma bind_skip (n : Z) (k : unit -> M unit) (st : state) :
  bind (skip n) k st = k tt (mkState (file st) (pos st + n) (s st)).
Proof. reflexivity. Qed.

Lemma length_bmp_header (w h : Z) : length (bmp_header w h) = 54%nat.
Proof. reflexivity. Qed.

Lemma length_bitmap (data32 : list byte) (w h : Z) :
  0 <= w -> 0 <= h ->
  Z.of_nat (length (bitmap data32 w h)) = 3 * w * h.
Proof.
  intros Hw Hh. unfold bitmap. rewrite length_rows_rev. nia.
Qed.

Ltac header_step :=
  first [ rewrite bind_setU16 by (cbn [file pos]; rewrite ?length_store; lia)
        | rewrite bind_setU32 by (cbn [file pos]; rewrite ?length_store; lia)
        | rewrite bind_skip ];
  cbn [file pos s].

(** From a zeroed buffer of the right length the writes build the closed
    form; the cursors end at 54 and at the pixel count. *)
Lemma write_file_ok (data32 : list byte) (w h : Z) (tail : list byte) :
  0 <= w -> 0 <= h ->
  Z.of_nat (length tail) = 3 * w * h ->
  write_file data32 w h (mkState (replicate 54 x00 ++ tail) 0 0) =
    inr (tt, mkState (bmp_header w h ++ bitmap data32 w h) 54 (h * w)).
Proof.
  intros Hw Hh Htail.
  assert (Hlen : Z.of_nat (length (replicate 54 x00 ++ tail)) = 54 + 3 * w * h).
  { rewrite length_app, length_replicate. lia. }
  assert (0 <= 3 * w * h) by nia.
  unfold write_file, headerSize, DIBHeaderSize.
  remember (replicate 54 x00 ++ tail) as f0 eqn:Ef0.
  do 14 header_step.
  unfold for_lt. rewrite trips_step1, stride_eq.
  rewrite rows_loop_ok by (cbn [file]; rewrite ?length_store; lia).
  cbn [file pos s]. do 2 f_equal. f_equal; [|lia].
  rewrite Z2Nat.id by lia.
  replace (54 + (h - 0 - h) * (3 * w)) with 54 by lia.
  subst f0. rewrite !store_app_l by (rewrite ?length_store; simpl; lia).
  change (Z.to_nat 54) with (length (bmp_header w h)).
  rewrite <- stride_eq.
  apply store_all.
  fold (bitmap data32 w h). apply Nat2Z.inj.
  rewrite length_bitmap by lia. lia.
Qed.

Lemma ArrayBuffer_ok (n : Z) :
  0 <= n ->
  ArrayBuffer (54 + n) = inr (replicate 54 x00 ++ replicate (Z.to_nat n) x00).
Proof.
  intros Hn. unfold ArrayBuffer.
  destruct (54 + n <? 0) eqn:E; [lia|].
  rewrite <- replicate_add. do 2 f_equal. lia.
Qed.

(** The run on non-negative dimensions and image data of whole words: no
    exception, and the locals end in the closed form. *)
Lemma run_from_image_ok (w h : Z) (idata : list byte) :
  0 <= w -> 0 <= h -> Z.of_nat (length idata) mod 4 = 0 ->
  run_from_image w h idata =
    inr (mkState (bmp_header w h ++ bitmap idata w h) 54 (h * w)).
Proof.
  intros Hw Hh Hdata. unfold run_from_image, Uint32Array.
  rewrite Hdata. cbn [Z.eqb]. unfold headerSize, DIBHeaderSize.
  change (14 + 40) with 54. rewrite stride_eq.
  assert (0 <= 3 * w * h) by nia.
  rewrite ArrayBuffer_ok by lia.
  rewrite write_file_ok; [reflexivity|lia|lia|].
  rewrite length_replicate. lia.
Qed.

(** The image data of a canvas has four bytes a pixel of the rectangle. *)
Lemma getImageData_length (w h : Z) (data idata : list byte) :
  getImageData w h data = inr idata ->
  Z.of_nat (length idata) = Z.abs w * Z.abs h * 4.
Proof.
  unfold getImageData. destruct ((w =? 0) || (h =? 0)); [discriminate|].
  intros Hi. assert (E : take (Z.to_nat (Z.abs w * Z.abs h * 4))
                           (data ++ replicate (Z.to_nat (Z.abs w * Z.abs h * 4)) x00)
                         = idata) by congruence.
  rewrite <- E, length_take, length_app, length_replicate. lia.
Qed.

(** On a bitmap of the canvas's size the image data is the bitmap. *)
Lemma getImageData_valid (w h : Z) (data : list byte) :
  1 <= w -> 1 <= h -> Z.of_nat (length data) = w * h * 4 ->
  getImageData w h data = inr data.
Proof.
  intros Hw Hh Hlen. unfold getImageData.
  destruct (Z.eqb_spec w 0) as [?|_]; [lia|].
  destruct (Z.eqb_spec h 0) as [?|_]; [lia|].
  cbn [orb]. rewrite !Z.abs_eq by lia.
  rewrite take_app_length' by lia. reflexivity.
Qed.

Lemma getImageData_zero (w h : Z) (data : list byte) :
  w = 0 \/ h = 0 -> getImageData w h data = inl IndexSizeError.
Proof.
  intros Hzero. unfold getImageData.
  destruct (Z.eqb_spec w 0) as [_|Hw]; [reflexivity|].
  destruct (Z.eqb_spec h 0) as [_|Hh]; [reflexivity|lia].
Qed.

Lemma run_toArrayBuffer_ok (w h : Z) (data : list byte) :
  1 <= w -> 1 <= h -> Z.of_nat (length data) = w * h * 4 ->
  run_toArrayBuffer w h data =
    inr (mkState (bmp_header w h ++ bitmap data w h) 54 (h * w)).
Proof.
  intros Hw Hh Hlen. unfold run_toArrayBuffer.
  rewrite getImageData_valid by assumption.
  apply run_from_image_ok; [lia|lia|].
  rewrite Hlen. apply Z.mod_mul. lia.
Qed.

Lemma toArrayBuffer_ok (w h : Z) (data : list byte) :
  1 <= w -> 1 <= h -> Z.of_nat (length data) = w * h * 4 ->
  toArrayBuffer w h data = inr (bmp_header w h ++ bitmap data w h).
Proof.
  intros Hw Hh Hlen. unfold toArrayBuffer.
  rewrite run_toArrayBuffer_ok by assumption. reflexivity.
Qed.

Lemma valid_input_aligned (w h : Z) (data : list byte) :
  valid_input w h data -> Z.of_nat (length data) mod 4 = 0.
Proof.
  intros (_ & _ & ->). apply Z.mod_mul. lia.
Qed.

(** The length of the file the method returns: 54 bytes and [3 * w] bytes
    a row. *)
Lemma toArrayBuffer_length (w h : Z) (data out : list byte) :
  0 <= w -> 0 <= h -> toArrayBuffer w h data = inr out ->
  Z.of_nat (length out) = 54 + stride w * h /\ stride w * h = 3 * w * h.
Proof.
  intros Hw Hh Hout. unfold toArrayBuffer, run_toArrayBuffer in Hout.
  destruct (getImageData w h data) as [e|idata] eqn:Ei; [discriminate|].
  pose proof (getImageData_length _ _ _ _ Ei) as Hlen.
  rewrite !Z.abs_eq in Hlen by lia.
  rewrite run_from_image_ok in Hout
    by (try lia; rewrite Hlen; apply Z.mod_mul; lia).
  cbn [file] in Hout.
  assert (Eout : bmp_header w h ++ bitmap idata w h = out) by congruence.
  rewrite <- Eout, length_app, length_bmp_header, Nat2Z.inj_add.
  rewrite length_bitmap by lia.
  rewrite stride_eq. lia.
Qed.

(** ** Reading the headers back *)

Lemma read_le_header (n off : nat) (v : Z) (w h : Z) (rest : list byte) :
  (off + n <= 54)%nat ->
  take n (drop off (bmp_header w h)) = le_bytes n v ->
  read_le n off (bmp_header w h ++ rest) = Some (v mod 2 ^ (8 * Z.of_nat n)).
Proof.
  intros Hoff Hfield. unfold read_le.
  destruct (decide (off + n <= length (bmp_header w h ++ rest))%nat) as [_|Hn].
  - rewrite drop_app_le by (rewrite length_bmp_header; lia).
    rewrite take_app_le by (rewrite length_drop, length_bmp_header; lia).
    rewrite Hfield, le_value_le_bytes. reflexivity.
  - rewrite length_app, length_bmp_header in Hn. lia.
Qed.

Lemma lookup_header (i : nat) (w h : Z) (rest : list byte) :
  (i < 54)%nat -> (bmp_header w h ++ rest) !! i = bmp_header w h !! i.
Proof.
  intros Hi. apply lookup_app_l. rewrite length_bmp_header. exact Hi.
Qed.

(** Every field of both headers, for a file on non-negative dimensions. *)
Lemma header_fields (w h : Z) (rest : list byte) :
  let out := bmp_header w h ++ rest in
  out !! 0%nat = Some x42 /\ out !! 1%nat = Some x4d /\
  getUint32 2 out = Some ((54 + stride w * h) mod 2 ^ 32) /\
  getUint32 6 out = Some 0 /\
  getUint32 10 out = Some 54 /\
  getUint32 14 out = Some 40 /\
  getUint32 18 out = Some (w mod 2 ^ 32) /\
  getUint32 22 out = Some (h mod 2 ^ 32) /\
  getUint16 26 out = Some 1 /\
  getUint16 28 out = Some 24 /\
  getUint32 30 out = Some 0 /\
  getUint32 34 out = Some ((stride w * h) mod 2 ^ 32) /\
  getUint32 38 out = Some 11811 /\
  getUint32 42 out = Some 11811 /\
  getUint32 46 out = Some 0 /\
  getUint32 50 out = Some 0.
Proof.
  intros out. subst out. unfold getUint32, getUint16.
  split; [reflexivity|]. split; [reflexivity|].
  repeat apply conj.
  - apply (read_le_header 4 2 (54 + stride w * h)); [lia|reflexivity].
  - apply (read_le_header 4 6 0); [lia|reflexivity].
  - apply (read_le_header 4 10 54); [lia|reflexivity].
  - apply (read_le_header 4 14 40); [lia|reflexivity].
  - apply (read_le_header 4 18 w); [lia|reflexivity].
  - rewrite <- (Z.mod_mod h (2 ^ 32)) by lia.
    apply (read_le_header 4 22 (h mod 2 ^ 32)); [lia|reflexivity].
  - apply (read_le_header 2 26 1); [lia|reflexivity].
  - apply (read_le_header 2 28 24); [lia|reflexivity].
  - apply (read_le_header 4 30 0); [lia|reflexivity].
  - apply (read_le_header 4 34 (stride w * h)); [lia|reflexivity].
  - apply (read_le_header 4 38 11811); [lia|reflexivity].
  - apply (read_le_header 4 42 11811); [lia|reflexivity].
  - apply (read_le_header 4 46 0); [lia|reflexivity].
  - apply (read_le_header 4 50 0); [lia|reflexivity].
Qed.

(** ** Where a pixel lands in the bitmap *)

Lemma lookup_row_bytes (data32 : list byte) (n : nat) :
  forall (s0 : Z) (x c : nat),
    (x < n)%nat -> (c < 3)%nat ->
    row_bytes data32 s0 n !! (3 * x + c)%nat
    = bgr (data32_get data32 (s0 + Z.of_nat x)) !! c.
Proof.
  induction n as [|n IH]; intros s0 x c Hx Hc; [lia|].
  cbn [row_bytes]. destruct x as [|x].
  - rewrite lookup_app_l by (simpl; lia).
    rewrite Z.add_0_r. reflexivity.
  - rewrite lookup_app_r by (simpl; lia).
    replace (3 * S x + c - length (bgr (data32_get data32 s0)))%nat
      with (3 * x + c)%nat by (simpl; lia).
    rewrite IH by lia.
    replace (s0 + 1 + Z.of_nat x) with (s0 + Z.of_nat (S x)) by lia.
    reflexivity.
Qed.

Lemma lookup_rows_rev (data32 : list byte) (w : nat) (y : nat) :
  forall (k : nat) (s0 : Z) (j : nat),
    (j < 3 * w)%nat ->
    rows_rev data32 w s0 (k + S y) !! (k * (3 * w) + j)%nat
    = row_bytes data32 (s0 + Z.of_nat y * Z.of_nat w) w !! j.
Proof.
  induction y as [|y IH]; intros k s0 j Hj.
  - replace (k + 1)%nat with (S k) by lia. cbn [rows_rev].
    rewrite lookup_app_r by (rewrite length_rows_rev; lia).
    rewrite length_rows_rev.
    replace (k * (3 * w) + j - k * (3 * w))%nat with j by lia.
    replace (s0 + Z.of_nat 0 * Z.of_nat w) with s0 by lia. reflexivity.
  - replace (k + S (S y))%nat with (S (k + S y)) by lia. cbn [rows_rev].
    rewrite lookup_app_l by (rewrite length_rows_rev; nia).
    rewrite IH by lia.
    replace (s0 + Z.of_nat w + Z.of_nat y * Z.of_nat w)
      with (s0 + Z.of_nat (S y) * Z.of_nat w) by lia.
    reflexivity.
Qed.

Lemma data32_get_lookup (data32 : list byte) (k : nat) (b0 b1 b2 b3 : byte) :
  data32 !! (4 * k)%nat = Some b0 ->
  data32 !! (4 * k + 1)%nat = Some b1 ->
  data32 !! (4 * k + 2)%nat = Some b2 ->
  data32 !! (4 * k + 3)%nat = Some b3 ->
  data32_get data32 (Z.of_nat k) = Some (le_value [b0; b1; b2; b3]).
Proof.
  intros H0 H1 H2 H3. unfold data32_get.
  destruct (Z.ltb_spec (Z.of_nat k) 0) as [E|_]; [lia|].
  rewrite Nat2Z.id.
  rewrite (drop_S _ _ _ H0).
  replace (S (4 * k)) with (4 * k + 1)%nat by lia. rewrite (drop_S _ _ _ H1).
  replace (S (4 * k + 1)) with (4 * k + 2)%nat by lia. rewrite (drop_S _ _ _ H2).
  replace (S (4 * k + 2)) with (4 * k + 3)%nat by lia. rewrite (drop_S _ _ _ H3).
  reflexivity.
Qed.

(** The pixel of column [x] and row [y] is stored as (B, G, R) in row
    [h - 1 - y] of the bitmap, rows being [stride w] bytes apart. *)
Lemma pixel_placement (w h x y : Z) (data out : list byte) (r g b : byte) :
  valid_input w h data -> 0 <= x < w -> 0 <= y < h ->
  toArrayBuffer w h data = inr out ->
  data !! Z.to_nat (4 * (y * w + x)) = Some r ->
  data !! Z.to_nat (4 * (y * w + x) + 1) = Some g ->
  data !! Z.to_nat (4 * (y * w + x) + 2) = Some b ->
  let p := 54 + (h - 1 - y) * stride w + 3 * x in
  out !! Z.to_nat p = Some b /\
  out !! Z.to_nat (p + 1) = Some g /\
  out !! Z.to_nat (p + 2) = Some r.
Proof.
  intros Hvalid Hx Hy Hout Hr Hg Hb p.
  pose proof (valid_input_aligned _ _ _ Hvalid) as Hal.
  destruct Hvalid as (Hw & Hh & Hlen).
  rewrite toArrayBuffer_ok in Hout by lia.
  assert (Eout : bmp_header w h ++ bitmap data w h = out) by congruence.
  clear Hout. subst out.
  set (W := Z.to_nat w). set (X := Z.to_nat x). set (Y := Z.to_nat y).
  set (K := Z.to_nat (h - 1 - y)).
  assert (HK : Z.to_nat h = (K + S Y)%nat) by (subst K Y; lia).
  assert (Hpix : (4 * (Y * W + X) + 3 < length data)%nat) by (subst W X Y; nia).
  destruct (lookup_lt_is_Some_2 data _ Hpix) as [a Ha].
  assert (Hword : data32_get data (0 + Z.of_nat Y * Z.of_nat W + Z.of_nat X)
                  = Some (le_value [r; g; b; a])).
  { replace (0 + Z.of_nat Y * Z.of_nat W + Z.of_nat X)
      with (Z.of_nat (Y * W + X)) by lia.
    apply data32_get_lookup; [| | |exact Ha].
    - rewrite <- Hr. f_equal. subst W X Y. nia.
    - rewrite <- Hg. f_equal. subst W X Y. nia.
    - rewrite <- Hb. f_equal. subst W X Y. nia. }
  assert (Hat : forall c : nat, (c < 3)%nat ->
            (bmp_header w h ++ bitmap data w h) !! Z.to_nat (p + Z.of_nat c)
            = bgr (Some (le_value [r; g; b; a])) !! c).
  { intros c Hc.
    replace (Z.to_nat (p + Z.of_nat c))
      with (length (bmp_header w h) + (K * (3 * W) + (3 * X + c)))%nat.
    - rewrite lookup_app_r by lia.
      replace (length (bmp_header w h) + (K * (3 * W) + (3 * X + c))
               - length (bmp_header w h))%nat
        with (K * (3 * W) + (3 * X + c))%nat by lia.
      unfold bitmap. fold W. rewrite HK.
      rewrite lookup_rows_rev by (subst W X; lia).
      rewrite lookup_row_bytes by (subst W X; lia).
      rewrite Hword. reflexivity.
    - rewrite length_bmp_header. subst p K W X. rewrite stride_eq. nia. }
  pose proof (Hat 0%nat ltac:(lia)) as H0.
  pose proof (Hat 1%nat ltac:(lia)) as H1.
  pose proof (Hat 2%nat ltac:(lia)) as H2.
  rewrite Z.add_0_r in H0.
  unfold bgr in H0, H1, H2. cbn [lookup list_lookup] in H0, H1, H2.
  rewrite blue_word in H0. rewrite green_word in H1. rewrite red_word in H2.
  auto.
Qed.

(** ** The alpha byte is never looked at *)

Lemma same_rgb_length (d1 d2 : list byte) :
  same_rgb d1 d2 -> length d1 = length d2.
Proof.
  induction 1 as [|r g b a a' l l' _ IH]; simpl; congruence.
Qed.

Lemma same_rgb_drop (k : nat) :
  forall d1 d2, same_rgb d1 d2 -> same_rgb (drop (4 * k) d1) (drop (4 * k) d2).
Proof.
  induction k as [|k IH]; intros d1 d2 Hsame.
  - exact Hsame.
  - replace (4 * S k)%nat with (S (S (S (S (4 * k))))) by lia.
    destruct Hsame as [|r g b a a' l l' Hsame].
    + rewrite !drop_nil. constructor.
    + cbn [drop]. apply IH. exact Hsame.
Qed.

Lemma same_rgb_channels (d1 d2 : list byte) (i : Z) :
  same_rgb d1 d2 -> bgr (data32_get d1 i) = bgr (data32_get d2 i).
Proof.
  intros Hsame. unfold data32_get.
  destruct (i <? 0); [reflexivity|].
  destruct (same_rgb_drop (Z.to_nat i) _ _ Hsame) as [|r g b a a' l l' _].
  - reflexivity.
  - unfold bgr. rewrite !red_word, !green_word, !blue_word. reflexivity.
Qed.

Lemma write_pixel_ext (d1 d2 : list byte) (p x : Z) (st : state) :
  same_rgb d1 d2 -> write_pixel d1 p x st = write_pixel d2 p x st.
Proof.
  intros Hsame.
  pose proof (same_rgb_channels d1 d2 (s st) Hsame) as Hch.
  unfold bgr in Hch. injection Hch as Hb Hg Hr.
  unfold write_pixel, bind, next_word, setUint8, setUint.
  cbn [file pos s le_bytes]. rewrite Hb, Hg, Hr. reflexivity.
Qed.

Lemma for_loop_ext (f g : Z -> M unit) (step : Z) (n : nat) :
  (forall x st, f x st = g x st) ->
  forall x st, for_loop n x step f st = for_loop n x step g st.
Proof.
  intros Hfg. induction n as [|n IH]; intros x st; [reflexivity|].
  cbn [for_loop]. unfold bind. rewrite Hfg.
  destruct (g x st) as [e|[[] st']]; [reflexivity|apply IH].
Qed.

Lemma bind_ext {A B : Type} (m : M A) (k1 k2 : A -> M B) (st : state) :
  (forall a st', k1 a st' = k2 a st') -> bind m k1 st = bind m k2 st.
Proof.
  intros Hk. unfold bind. destruct (m st) as [e|[a st']]; [reflexivity|apply Hk].
Qed.

Lemma write_file_ext (d1 d2 : list byte) (w h : Z) (st : state) :
  same_rgb d1 d2 -> write_file d1 w h st = write_file d2 w h st.
Proof.
  intros Hsame. unfold write_file.
  do 14 (apply bind_ext; intros [] ?).
  unfold for_lt. apply for_loop_ext. intros y st1.
  unfold write_row, for_lt. apply for_loop_ext. intros x st2.
  apply write_pixel_ext. exact Hsame.
Qed.

Lemma run_from_image_ext (d1 d2 : list byte) (w h : Z) :
  same_rgb d1 d2 -> run_from_image w h d1 = run_from_image w h d2.
Proof.
  intros Hsame. unfold run_from_image, Uint32Array.
  rewrite (same_rgb_length _ _ Hsame).
  destruct (Z.of_nat (length d2) mod 4 =? 0); [|reflexivity].
  destruct (ArrayBuffer _) as [e|buf]; [reflexivity|].
  rewrite (write_file_ext d1 d2) by exact Hsame. reflexivity.
Qed.

Lemma toArrayBuffer_ext (d1 d2 : list byte) (w h : Z) :
  valid_input w h d1 -> valid_input w h d2 -> same_rgb d1 d2 ->
  toArrayBuffer w h d1 = toArrayBuffer w h d2.
Proof.
  intros (Hw & Hh & Hl1) (_ & _ & Hl2) Hsame.
  unfold toArrayBuffer, run_toArrayBuffer.
  rewrite !getImageData_valid by assumption.
  rewrite (run_from_image_ext d1 d2) by exact Hsame. reflexivity.
Qed.

(** Buffers of whole pixels that agree at every index but the alpha ones. *)
Lemma same_rgb_intro (n : nat) :
  forall d1 d2 : list byte,
    length d1 = (4 * n)%nat -> length d2 = (4 * n)%nat ->
    (forall i : nat, (i mod 4)%nat <> 3%nat -> d1 !! i = d2 !! i) ->
    same_rgb d1 d2.
Proof.
  induction n as [|n IH]; intros d1 d2 H1 H2 Hrgb.
  - destruct d1; [|discriminate]. destruct d2; [|discriminate]. constructor.
  - destruct d1 as [|r1 [|g1 [|b1 [|a1 l1]]]]; try (simpl in H1; lia).
    destruct d2 as [|r2 [|g2 [|b2 [|a2 l2]]]]; try (simpl in H2; lia).
    pose proof (Hrgb 0%nat ltac:(simpl; lia)) as E0.
    pose proof (Hrgb 1%nat ltac:(simpl; lia)) as E1.
    pose proof (Hrgb 2%nat ltac:(simpl; lia)) as E2.
    simpl in E0, E1, E2.
    injection E0 as <-. injection E1 as <-. injection E2 as <-.
    constructor. apply IH.
    + simpl in H1. lia.
    + simpl in H2. lia.
    + intros i Hi. apply (Hrgb (S (S (S (S i))))).
      replace (S (S (S (S i)))) with (i + 1 * 4)%nat by lia.
      rewrite Nat.Div0.mod_add. exact Hi.
Qed.

(** ** The loops run exactly while their guards hold *)

Lemma trips_guard (from to step : Z) :
  0 < step ->
  (forall i, 0 <= i < Z.of_nat (trips from to step) -> from + i * step < to) /\
  to <= from + Z.of_nat (trips from to step) * step.
Proof.
  intros Hstep. unfold trips.
  pose proof (Z.div_mod (to - from + step - 1) step ltac:(lia)) as Hdiv.
  pose proof (Z.mod_pos_bound (to - from + step - 1) step Hstep) as Hmod.
  set (q := (to - from + step - 1) / step) in *.
  destruct (Z.le_gt_cases q 0) as [Hq|Hq].
  - replace (Z.to_nat q) with 0%nat by lia. split; [intros i Hi; lia|nia].
  - rewrite Z2Nat.id by lia. split; [intros i Hi; nia|nia].
Qed.

(** ** The stride *)

(** [padded_stride w] is the least multiple of 4 that holds [3 * w] bytes. *)
Lemma padded_stride_spec (w : Z) :
  padded_stride w mod 4 = 0 /\ 3 * w <= padded_stride w < 3 * w + 4.
Proof.
  unfold padded_stride. split.
  - apply Z.mod_mul. lia.
  - Z.div_mod_to_equations. lia.
Qed.

(** The method's stride has the padding exactly when the width is a
    multiple of 4. *)
Lemma stride_padded_iff (w : Z) : stride w = padded_stride w <-> w mod 4 = 0.
Proof.
  rewrite stride_eq. unfold padded_stride.
  split; intros H; Z.div_mod_to_equations; lia.
Qed.

(** Every file is [54 + 3 * w * h] bytes long: short of the padded length
    as soon as the width is not a multiple of 4. *)
Lemma length_short_of_padded (w h : Z) (data out : list byte) :
  valid_input w h data -> w mod 4 <> 0 ->
  toArrayBuffer w h data = inr out ->
  Z.of_nat (length out) < 54 + padded_stride w * h.
Proof.
  intros (Hw & Hh & _) Hmod Hout.
  destruct (toArrayBuffer_length w h data out) as [Hlen Hsz]; [lia|lia|exact Hout|].
  pose proof (padded_stride_spec w) as [Hp4 Hp].
  assert (3 * w < padded_stride w).
  { destruct (Z.eq_dec (padded_stride w) (3 * w)) as [E|E]; [|lia].
    exfalso. apply Hmod. apply stride_padded_iff. rewrite stride_eq. lia. }
  rewrite Hlen, Hsz. nia.
Qed.

(** The rows of the source come out last row first: a 1 by 2 image of a red
    pixel above a green one has the green one first in the file. *)
Example flip_1x2 :
  exists out, toArrayBuffer 1 2 px_red_green = inr out /\
              drop 54 out = [x00; xff; x00; x00; x00; xff].
Proof.
  eexists. split; [vm_compute; reflexivity|reflexivity].
Qed.

(** C2, at width 1: [Math.floor((24 * w + 23) / 24) * 3] is 3, the unpadded
    row length, where the row length rounded up to a multiple of 4 is 4. *)
Theorem stride_1_not_padded : stride 1 = 3 /\ padded_stride 1 = 4.
Proof. split; reflexivity. Qed.

(** C1, at width 1 and height 1: the file returned has 57 bytes, the headers
    and one unpadded row, where a padded row makes it 58. *)
Theorem length_1x1_is_57 :
  exists out, toArrayBuffer 1 1 px_red = inr out /\
              length out = 57%nat /\ 54 + padded_stride 1 * 1 = 58.
Proof.
  eexists. split; [vm_compute; reflexivity|]. split; reflexivity.
Qed.

(** C3, at width 2 and height 1 on a red and a green pixel: the bytes from
    offset 54 on are [00 00 FF 00 FF 00] and the file ends there, at 60
    bytes; the two padding bytes of a stride of 8 are missing. *)
Theorem scenario_2x1_has_no_padding :
  exists out, toArrayBuffer 2 1 px_red_green = inr out /\
              drop 54 out = [x00; x00; xff; x00; xff; x00] /\
              length out = 60%nat /\ padded_stride 2 = 8.
Proof.
  eexists. split; [vm_compute; reflexivity|]. repeat split.
Qed.

(** C4, at width 1 and height 1: both resolution fields hold 0x2e23 = 11811
    pixels per metre, which is 300 DPI; 72 DPI is 2835. *)
Theorem resolution_1x1_is_11811 :
  exists out, toArrayBuffer 1 1 px_red = inr out /\
              getUint32 38 out = Some 11811 /\
              getUint32 42 out = Some 11811 /\
              11811 <> 2835.
Proof.
  eexists. split; [vm_compute; reflexivity|]. repeat split. discriminate.
Qed.

(** The DIB header of every valid input whose sizes fit their 4-byte
    fields. *)
Lemma dib_header_fields (w h : Z) (data : list byte) :
  valid_input w h data -> w < 2 ^ 32 -> h < 2 ^ 32 -> stride w * h < 2 ^ 32 ->
  exists out, toArrayBuffer w h data = inr out /\
    getUint32 14 out = Some 40 /\
    getUint32 18 out = Some w /\
    getUint32 22 out = Some h /\
    getUint16 26 out = Some 1 /\
    getUint16 28 out = Some 24 /\
    getUint32 30 out = Some 0 /\
    getUint32 34 out = Some (stride w * h) /\
    getUint32 38 out = Some 11811 /\
    getUint32 42 out = Some 11811 /\
    getUint32 46 out = Some 0 /\
    getUint32 50 out = Some 0.
Proof.
  intros Hvalid Hw32 Hh32 Hsz.
  pose proof (valid_input_aligned _ _ _ Hvalid) as Hal.
  destruct Hvalid as (Hw & Hh & Hlen).
  exists (bmp_header w h ++ bitmap data w h).
  split; [apply toArrayBuffer_ok; lia|].
  pose proof (header_fields w h (bitmap data w h)) as Hf. cbv zeta in Hf.
  destruct Hf as (_ & _ & _ & _ & _ & H14 & H18 & H22 & H26 & H28 & H30
                  & H34 & H38 & H42 & H46 & H50).
  assert (0 <= stride w * h) by (rewrite stride_eq; nia).
  rewrite Z.mod_small in H18 by lia.
  rewrite Z.mod_small in H22 by lia.
  rewrite Z.mod_small in H34 by lia.
  repeat apply conj; assumption.
Qed.

(** C5.  For every valid input whose pixel buffer is shorter than 2^32
    bytes, the file begins with 0x42 0x4D, the little-endian integer at
    offset 2 is the length of the returned buffer, the bytes 6 to 9 are
    zero, and the little-endian integer at offset 10 is 54. *)
Theorem file_header_correct (w h : Z) (data : list byte) :
  valid_input w h data -> Z.of_nat (length data) < 2 ^ 32 ->
  exists out, toArrayBuffer w h data = inr out /\
    out !! 0%nat = Some x42 /\ out !! 1%nat = Some x4d /\
    getUint32 2 out = Some (Z.of_nat (length out)) /\
    out !! 6%nat = Some x00 /\ out !! 7%nat = Some x00 /\
    out !! 8%nat = Some x00 /\ out !! 9%nat = Some x00 /\
    getUint32 10 out = Some 54.
Proof.
  intros Hvalid Hsz.
  pose proof (valid_input_aligned _ _ _ Hvalid) as Hal.
  destruct Hvalid as (Hw & Hh & Hlen).
  exists (bmp_header w h ++ bitmap data w h).
  split; [apply toArrayBuffer_ok; lia|].
  pose proof (header_fields w h (bitmap data w h)) as Hf. cbv zeta in Hf.
  destruct Hf as (H0 & H1 & H2 & _ & H10 & _).
  assert (Hout : Z.of_nat (length (bmp_header w h ++ bitmap data w h))
                 = 54 + stride w * h).
  { rewrite length_app, length_bmp_header, Nat2Z.inj_add.
    rewrite length_bitmap by lia. rewrite stride_eq. lia. }
  assert (0 <= w * h) by nia.
  rewrite Hout, <- (Z.mod_small (54 + stride w * h) (2 ^ 32))
    by (rewrite stride_eq; lia).
  repeat apply conj; try assumption;
    (rewrite lookup_header by lia; reflexivity).
Qed.

Lemma file_header_correct_witness :
  exists out, toArrayBuffer 1 1 px_red = inr out /\
    out !! 0%nat = Some x42 /\ out !! 1%nat = Some x4d /\
    getUint32 2 out = Some (Z.of_nat (length out)) /\
    out !! 6%nat = Some x00 /\ out !! 7%nat = Some x00 /\
    out !! 8%nat = Some x00 /\ out !! 9%nat = Some x00 /\
    getUint32 10 out = Some 54.
Proof.
  apply (file_header_correct 1 1 px_red).
  - unfold valid_input. simpl. lia.
  - simpl. lia.
Defined.

(** ** A canvas with a dimension of 0 *)



(** C10, as the method has it.  With a width or a height of 0 the call
    never reaches the stride, the allocation or the loops: [getImageData]
    raises an [IndexSizeError], so does [toArrayBuffer], and no buffer, of
    54 bytes or of any other length, is returned. *)
Theorem empty_canvas_raises (w h : Z) :
  w = 0 \/ h = 0 ->
  getImageData w h [] = inl IndexSizeError /\
  toArrayBuffer w h [] = inl IndexSizeError /\
  ~ (exists out, toArrayBuffer w h [] = inr out).
Proof.
  intros Hzero.
  pose proof (getImageData_zero w h [] Hzero) as Hg.
  assert (Hr : toArrayBuffer w h [] = inl IndexSizeError).
  { unfold toArrayBuffer, run_toArrayBuffer. rewrite Hg. reflexivity. }
  split; [exact Hg|]. split; [exact Hr|].
  intros [out Hout]. rewrite Hr in Hout. discriminate.
Qed.

Lemma empty_canvas_raises_witness :
  getImageData 0 3 [] = inl IndexSizeError /\
  toArrayBuffer 0 3 [] = inl IndexSizeError /\
  ~ (exists out, toArrayBuffer 0 3 [] = inr out).
Proof.
  apply (empty_canvas_raises 0 3).
  left. reflexivity.
Defined.

(** C10 as stated fails: on a 0 by 0 canvas with an empty pixel buffer the
    call raises, and returns no 54-byte buffer. *)
Lemma empty_canvas_no_buffer_counterexample :
  toArrayBuffer 0 0 [] = inl IndexSizeError /\
  ~ (exists out, toArrayBuffer 0 0 [] = inr out /\ length out = 54%nat).
Proof.
  split; [vm_compute; reflexivity|].
  intros (out & Hout & _). vm_compute in Hout. discriminate.
Qed.

(** On a canvas of positive dimensions the image data has exactly
    [w * h * 4] bytes, the 32-bit view of it is made without an exception,
    and the call returns: the length of the pixel buffer is not the
    caller's to get wrong. *)
Lemma image_data_of_canvas (w h : Z) (data : list byte) :
  valid_input w h data ->
  getImageData w h data = inr data /\
  Uint32Array data = inr data /\
  exists out, toArrayBuffer w h data = inr out.
Proof.
  intros Hvalid.
  pose proof (valid_input_aligned _ _ _ Hvalid) as Hal.
  destruct Hvalid as (Hw & Hh & Hlen).
  split; [apply getImageData_valid; assumption|].
  split.
  - unfold Uint32Array. rewrite Hal. reflexivity.
  - eexists. apply toArrayBuffer_ok; assumption.
Qed.

(** ** Hyperproperties *)

(** C8.  Two valid pixel buffers for the same dimensions that agree at every
    byte but the alpha bytes (the indices 3, 7, 11, ...) are encoded to the
    same bytes. *)
Theorem alpha_never_inspected (w h : Z) (d1 d2 : list byte) :
  valid_input w h d1 -> valid_input w h d2 ->
  (forall i : nat, (i mod 4)%nat <> 3%nat -> d1 !! i = d2 !! i) ->
  exists out, toArrayBuffer w h d1 = inr out /\ toArrayBuffer w h d2 = inr out.
Proof.
  intros Hv1 Hv2 Hrgb.
  pose proof (valid_input_aligned _ _ _ Hv1) as Hal.
  destruct Hv1 as (Hw & Hh & Hl1). destruct Hv2 as (_ & _ & Hl2).
  assert (Hsame : same_rgb d1 d2).
  { apply (same_rgb_intro (Z.to_nat (w * h))); [nia|nia|exact Hrgb]. }
  exists (bmp_header w h ++ bitmap d1 w h). split.
  - apply toArrayBuffer_ok; lia.
  - rewrite <- (toArrayBuffer_ext d1 d2)
      by (try exact Hsame; unfold valid_input; lia).
    apply toArrayBuffer_ok; lia.
Qed.

Lemma alpha_never_inspected_witness :
  exists out, toArrayBuffer 1 1 px_red = inr out /\
              toArrayBuffer 1 1 [xff; x00; x00; x00] = inr out.
Proof.
  apply (alpha_never_inspected 1 1 px_red [xff; x00; x00; x00]).
  - unfold valid_input. simpl. lia.
  - unfold valid_input. simpl. lia.
  - intros [|[|[|[|i]]]] Hi; try reflexivity. simpl in Hi. lia.
Defined.

(** ** The cursor helpers [setU16] and [setU32] *)

Lemma store_splice (bs buf : list byte) (off : nat) :
  (off + length bs <= length buf)%nat ->
  store off bs buf = take off buf ++ bs ++ drop (off + length bs) buf.
Proof.
  intros Hoff.
  rewrite <- (take_drop off buf) at 1.
  rewrite <- (take_drop (length bs) (drop off buf)) at 1.
  rewrite app_assoc.
  rewrite store_app_l
    by (rewrite length_app, !length_take, length_drop; lia).
  replace off with (length (take off buf)) at 1 by (rewrite length_take; lia).
  rewrite store_all by (rewrite length_take, length_drop; lia).
  rewrite drop_drop, <- app_assoc. reflexivity.
Qed.

Lemma lookup_store_outside (bs : list byte) :
  forall (off i : nat) (buf : list byte),
    (i < off \/ off + length bs <= i)%nat ->
    store off bs buf !! i = buf !! i.
Proof.
  induction bs as [|b bs IH]; intros off i buf Hi; simpl in *; [reflexivity|].
  rewrite IH by lia. apply list_lookup_insert_ne. lia.
Qed.

Lemma read_le_store (bs buf : list byte) (off : nat) :
  (off + length bs <= length buf)%nat ->
  read_le (length bs) off (store off bs buf) = Some (le_value bs).
Proof.
  intros Hoff. unfold read_le. rewrite length_store.
  destruct (decide (off + length bs <= length buf)%nat) as [_|Hn]; [|lia].
  rewrite store_splice by exact Hoff.
  rewrite drop_app_length' by (rewrite length_take; lia).
  rewrite take_app_length. reflexivity.
Qed.

Lemma setUint_writes (n : nat) (off v : Z) (st : state) :
  0 <= off -> off + Z.of_nat n <= Z.of_nat (length (file st)) ->
  exists st',
    setUint n off v st = inr (tt, st') /\
    pos st' = pos st /\ s st' = s st /\
    length (file st') = length (file st) /\
    read_le n (Z.to_nat off) (file st') = Some (v mod 2 ^ (8 * Z.of_nat n)) /\
    forall i : nat,
      (i < Z.to_nat off \/ Z.to_nat off + n <= i)%nat ->
      file st' !! i = file st !! i.
Proof.
  intros H0 H1. eexists. split; [apply setUint_ok; assumption|].
  cbn [file pos s]. repeat apply conj; try reflexivity.
  - apply length_store.
  - rewrite <- (length_le_bytes n v) at 1.
    rewrite read_le_store by (rewrite length_le_bytes; lia).
    apply f_equal, le_value_le_bytes.
  - intros i Hi. apply lookup_store_outside. rewrite length_le_bytes. lia.
Qed.

(** X9.  [setU32] at a cursor with four bytes left: the value is stored in
    little-endian order where the cursor was and reads back modulo 2^32, the
    cursor moves on by 4, and every other byte of the file, its length and
    the read cursor are as before. *)
Theorem setU32_writes_and_advances (v : Z) (st : state) :
  0 <= pos st -> pos st + 4 <= Z.of_nat (length (file st)) ->
  exists st',
    setU32 v st = inr (tt, st') /\
    pos st' = pos st + 4 /\ s st' = s st /\
    length (file st') = length (file st) /\
    getUint32 (Z.to_nat (pos st)) (file st') = Some (v mod 2 ^ 32) /\
    forall i : nat,
      (i < Z.to_nat (pos st) \/ Z.to_nat (pos st) + 4 <= i)%nat ->
      file st' !! i = file st !! i.
Proof.
  intros H0 H1.
  destruct (setUint_writes 4 (pos st) v st H0 ltac:(lia))
    as (st1 & Hrun & Hpos & Hs & Hlen & Hread & Hframe).
  exists (mkState (file st1) (pos st1 + 4) (s st1)).
  unfold setU32, setUint32. rewrite Hrun. cbn [file pos s].
  rewrite Hpos. repeat apply conj; try assumption; reflexivity.
Qed.

Lemma setU32_writes_and_advances_witness :
  exists st',
    setU32 54 (mkState (replicate 8 xff) 2 0) = inr (tt, st') /\
    pos st' = 2 + 4 /\ s st' = 0 /\
    length (file st') = 8%nat /\
    getUint32 2 (file st') = Some (54 mod 2 ^ 32) /\
    forall i : nat,
      (i < 2 \/ 2 + 4 <= i)%nat ->
      file st' !! i = replicate 8 xff !! i.
Proof.
  apply (setU32_writes_and_advances 54 (mkState (replicate 8 xff) 2 0)).
  - simpl. lia.
  - simpl. lia.
Defined.

(** X10.  [setU16] at a cursor with two bytes left: the value is stored in
    little-endian order where the cursor was and reads back modulo 2^16, the
    cursor moves on by 2, and every other byte of the file, its length and
    the read cursor are as before. *)
Theorem setU16_writes_and_advances (v : Z) (st : state) :
  0 <= pos st -> pos st + 2 <= Z.of_nat (length (file st)) ->
  exists st',
    setU16 v st = inr (tt, st') /\
    pos st' = pos st + 2 /\ s st' = s st /\
    length (file st') = length (file st) /\
    getUint16 (Z.to_nat (pos st)) (file st') = Some (v mod 2 ^ 16) /\
    forall i : nat,
      (i < Z.to_nat (pos st) \/ Z.to_nat (pos st) + 2 <= i)%nat ->
      file st' !! i = file st !! i.
Proof.
  intros H0 H1.
  destruct (setUint_writes 2 (pos st) v st H0 ltac:(lia))
    as (st1 & Hrun & Hpos & Hs & Hlen & Hread & Hframe).
  exists (mkState (file st1) (pos st1 + 2) (s st1)).
  unfold setU16, setUint16. rewrite Hrun. cbn [file pos s].
  rewrite Hpos. repeat apply conj; try assumption; reflexivity.
Qed.

Lemma setU16_writes_and_advances_witness :
  exists st',
    setU16 19778 (mkState (replicate 8 xff) 0 0) = inr (tt, st') /\
    pos st' = 0 + 2 /\ s st' = 0 /\
    length (file st') = 8%nat /\
    getUint16 0 (file st') = Some (19778 mod 2 ^ 16) /\
    forall i : nat,
      (i < 0 \/ 0 + 2 <= i)%nat ->
      file st' !! i = replicate 8 xff !! i.
Proof.
  apply (setU16_writes_and_advances 19778 (mkState (replicate 8 xff) 0 0)).
  - simpl. lia.
  - simpl. lia.
Defined.

(** ** More on the bitmap *)

(** The three bytes of pixel ([x], [y]) in the file, whatever the pixel
    buffer holds at its word. *)
Lemma pixel_bytes (w h x y : Z) (data : list byte) (c : nat) :
  0 <= x < w -> 0 <= y < h -> (c < 3)%nat ->
  (bmp_header w h ++ bitmap data w h)
    !! Z.to_nat (54 + (h - 1 - y) * stride w + 3 * x + Z.of_nat c)
  = bgr (data32_get data (y * w + x)) !! c.
Proof.
  intros Hx Hy Hc.
  set (W := Z.to_nat w). set (X := Z.to_nat x). set (Y := Z.to_nat y).
  set (K := Z.to_nat (h - 1 - y)).
  assert (HK : Z.to_nat h = (K + S Y)%nat) by (subst K Y; lia).
  replace (Z.to_nat (54 + (h - 1 - y) * stride w + 3 * x + Z.of_nat c))
    with (length (bmp_header w h) + (K * (3 * W) + (3 * X + c)))%nat
    by (rewrite length_bmp_header; subst K W X; rewrite stride_eq; nia).
  rewrite lookup_app_r by lia.
  replace (length (bmp_header w h) + (K * (3 * W) + (3 * X + c))
           - length (bmp_header w h))%nat
    with (K * (3 * W) + (3 * X + c))%nat by lia.
  unfold bitmap. fold W. rewrite HK.
  rewrite lookup_rows_rev by (subst W X; lia).
  rewrite lookup_row_bytes by (subst W X; lia).
  replace (0 + Z.of_nat Y * Z.of_nat W + Z.of_nat X) with (y * w + x)
    by (subst W X Y; nia).
  reflexivity.
Qed.

(** X2.  Every pixel of a valid input is stored blue, green, red, its alpha
    byte left out, at [54 + (h - 1 - y) * 3 * w + 3 * x]: source row [y] is
    row [h - 1 - y] of the file, and rows are [3 * w] bytes apart. *)
Theorem pixel_stored_bgr_bottom_up (w h x y : Z) (data : list byte) :
  valid_input w h data -> 0 <= x < w -> 0 <= y < h ->
  exists (out : list byte) (r g b : byte),
    toArrayBuffer w h data = inr out /\
    data !! Z.to_nat (4 * (y * w + x)) = Some r /\
    data !! Z.to_nat (4 * (y * w + x) + 1) = Some g /\
    data !! Z.to_nat (4 * (y * w + x) + 2) = Some b /\
    out !! Z.to_nat (54 + (h - 1 - y) * (3 * w) + 3 * x) = Some b /\
    out !! Z.to_nat (54 + (h - 1 - y) * (3 * w) + 3 * x + 1) = Some g /\
    out !! Z.to_nat (54 + (h - 1 - y) * (3 * w) + 3 * x + 2) = Some r.
Proof.
  intros Hvalid Hx Hy.
  pose proof (valid_input_aligned _ _ _ Hvalid) as Hal.
  pose proof Hvalid as (Hw & Hh & Hlen).
  assert (Hin : (Z.to_nat (4 * (y * w + x) + 2) < length data)%nat) by nia.
  destruct (lookup_lt_is_Some_2 data (Z.to_nat (4 * (y * w + x))) ltac:(lia))
    as [r Hr].
  destruct (lookup_lt_is_Some_2 data (Z.to_nat (4 * (y * w + x) + 1)) ltac:(lia))
    as [g Hg].
  destruct (lookup_lt_is_Some_2 data (Z.to_nat (4 * (y * w + x) + 2)) ltac:(lia))
    as [b Hb].
  exists (bmp_header w h ++ bitmap data w h), r, g, b.
  assert (Hout : toArrayBuffer w h data = inr (bmp_header w h ++ bitmap data w h))
    by (apply toArrayBuffer_ok; lia).
  pose proof (pixel_placement w h x y data _ r g b Hvalid Hx Hy Hout Hr Hg Hb)
    as Hplace.
  cbv zeta in Hplace. rewrite stride_eq in Hplace.
  destruct Hplace as (Pb & Pg & Pr).
  repeat apply conj; assumption.
Qed.

Lemma pixel_stored_bgr_bottom_up_witness :
  exists (out : list byte) (r g b : byte),
    toArrayBuffer 1 2 px_red_green = inr out /\
    px_red_green !! Z.to_nat (4 * (1 * 1 + 0)) = Some r /\
    px_red_green !! Z.to_nat (4 * (1 * 1 + 0) + 1) = Some g /\
    px_red_green !! Z.to_nat (4 * (1 * 1 + 0) + 2) = Some b /\
    out !! Z.to_nat (54 + (2 - 1 - 1) * (3 * 1) + 3 * 0) = Some b /\
    out !! Z.to_nat (54 + (2 - 1 - 1) * (3 * 1) + 3 * 0 + 1) = Some g /\
    out !! Z.to_nat (54 + (2 - 1 - 1) * (3 * 1) + 3 * 0 + 2) = Some r.
Proof.
  apply (pixel_stored_bgr_bottom_up 1 2 0 1 px_red_green).
  - unfold valid_input. simpl. lia.
  - lia.
  - lia.
Defined.

Lemma bgr_of_word (data : list byte) (k : nat) (b0 b1 b2 b3 : byte) :
  data !! (4 * k)%nat = Some b0 ->
  data !! (4 * k + 1)%nat = Some b1 ->
  data !! (4 * k + 2)%nat = Some b2 ->
  data !! (4 * k + 3)%nat = Some b3 ->
  bgr (data32_get data (Z.of_nat k)) = [b2; b1; b0].
Proof.
  intros H0 H1 H2 H3.
  rewrite (data32_get_lookup data k b0 b1 b2 b3) by assumption.
  unfold bgr. rewrite blue_word, green_word, red_word. reflexivity.
Qed.

(** The word of every pixel keeps its three colour bytes in the file: two
    buffers with the same file have the same [bgr] at every pixel. *)
Lemma same_file_same_bgr (w h : Z) (d1 d2 : list byte) (k : Z) :
  0 < w -> 0 < h -> 0 <= k < w * h ->
  bitmap d1 w h = bitmap d2 w h ->
  bgr (data32_get d1 k) = bgr (data32_get d2 k).
Proof.
  intros Hw Hh Hk Hbm.
  set (y := k / w). set (x := k mod w).
  assert (Hx : 0 <= x < w) by (apply Z.mod_pos_bound; lia).
  assert (Hkxy : y * w + x = k).
  { subst x y. rewrite (Z.div_mod k w) at 3 by lia. lia. }
  assert (Hy : 0 <= y < h).
  { split; [apply Z.div_pos; lia|].
    apply Z.div_lt_upper_bound; lia. }
  assert (Hc : forall c : nat, (c < 3)%nat ->
            bgr (data32_get d1 k) !! c = bgr (data32_get d2 k) !! c).
  { intros c Hc. rewrite <- Hkxy.
    rewrite <- (pixel_bytes w h x y d1 c) by assumption.
    rewrite <- (pixel_bytes w h x y d2 c) by assumption.
    rewrite Hbm. reflexivity. }
  pose proof (Hc 0%nat ltac:(lia)) as H0.
  pose proof (Hc 1%nat ltac:(lia)) as H1.
  pose proof (Hc 2%nat ltac:(lia)) as H2.
  unfold bgr in *. cbn [lookup list_lookup] in H0, H1, H2. congruence.
Qed.

(** X3.  Nothing but the alpha bytes is lost: two valid pixel buffers for the
    same dimensions that are encoded to the same file agree at every byte
    that is not an alpha byte. *)
Theorem same_file_same_rgb (w h : Z) (d1 d2 : list byte) :
  valid_input w h d1 -> valid_input w h d2 ->
  toArrayBuffer w h d1 = toArrayBuffer w h d2 ->
  forall i : nat, (i mod 4)%nat <> 3%nat -> d1 !! i = d2 !! i.
Proof.
  intros Hv1 Hv2 Hsame i Hi.
  pose proof (valid_input_aligned _ _ _ Hv1) as Hal1.
  pose proof (valid_input_aligned _ _ _ Hv2) as Hal2.
  destruct Hv1 as (Hw & Hh & Hl1). destruct Hv2 as (_ & _ & Hl2).
  rewrite !toArrayBuffer_ok in Hsame by lia.
  assert (Hbm : bitmap d1 w h = bitmap d2 w h).
  { apply (app_inv_head (bmp_header w h)). congruence. }
  destruct (Nat.lt_ge_cases i (length d1)) as [Hlt|Hge].
  - set (k := (i / 4)%nat).
    pose proof (Nat.div_mod_eq i 4) as Hdm. fold k in Hdm.
    pose proof (Nat.mod_upper_bound i 4 ltac:(lia)) as Hm.
    assert (Hk3 : (4 * k + 3 < length d1)%nat).
    { assert (Z.of_nat (length d1) = 4 * (w * h)) by lia.
      assert (Z.of_nat k < w * h) by lia. lia. }
    destruct (lookup_lt_is_Some_2 d1 (4 * k) ltac:(lia)) as [a0 A0].
    destruct (lookup_lt_is_Some_2 d1 (4 * k + 1) ltac:(lia)) as [a1 A1].
    destruct (lookup_lt_is_Some_2 d1 (4 * k + 2) ltac:(lia)) as [a2 A2].
    destruct (lookup_lt_is_Some_2 d1 (4 * k + 3) ltac:(lia)) as [a3 A3].
    destruct (lookup_lt_is_Some_2 d2 (4 * k) ltac:(lia)) as [b0 B0].
    destruct (lookup_lt_is_Some_2 d2 (4 * k + 1) ltac:(lia)) as [b1 B1].
    destruct (lookup_lt_is_Some_2 d2 (4 * k + 2) ltac:(lia)) as [b2 B2].
    destruct (lookup_lt_is_Some_2 d2 (4 * k + 3) ltac:(lia)) as [b3 B3].
    pose proof (same_file_same_bgr w h d1 d2 (Z.of_nat k)
                  ltac:(lia) ltac:(lia) ltac:(lia) Hbm) as Hbgr.
    rewrite (bgr_of_word d1 k a0 a1 a2 a3) in Hbgr by assumption.
    rewrite (bgr_of_word d2 k b0 b1 b2 b3) in Hbgr by assumption.
    injection Hbgr as E2 E1 E0. subst b0 b1 b2.
    rewrite Hdm.
    destruct (i mod 4)%nat as [|[|[|m]]] eqn:Em.
    + rewrite Nat.add_0_r. congruence.
    + congruence.
    + congruence.
    + destruct m; [congruence|lia].
  - rewrite !lookup_ge_None_2 by lia. reflexivity.
Qed.

Lemma same_file_same_rgb_witness :
  px_red !! 1%nat = [xff; x00; x00; x00] !! 1%nat.
Proof.
  apply (same_file_same_rgb 1 1 px_red [xff; x00; x00; x00]).
  - unfold valid_input. simpl. lia.
  - unfold valid_input. simpl. lia.
  - vm_compute. reflexivity.
  - simpl. lia.
Defined.

(** ** More on the headers and the length *)

(** X1.  The file of a valid input has [54 + 3 * w * h] bytes; that is the
    length with rows padded to a multiple of 4 bytes exactly when the width
    is a multiple of 4. *)
Theorem file_length_and_alignment (w h : Z) (data : list byte) :
  valid_input w h data ->
  exists out : list byte,
    toArrayBuffer w h data = inr out /\
    Z.of_nat (length out) = 54 + 3 * w * h /\
    (Z.of_nat (length out) = 54 + padded_stride w * h <-> w mod 4 = 0).
Proof.
  intros Hvalid.
  pose proof (valid_input_aligned _ _ _ Hvalid) as Hal.
  destruct Hvalid as (Hw & Hh & Hlen).
  exists (bmp_header w h ++ bitmap data w h).
  assert (Hout : toArrayBuffer w h data = inr (bmp_header w h ++ bitmap data w h))
    by (apply toArrayBuffer_ok; lia).
  destruct (toArrayBuffer_length w h data _ ltac:(lia) ltac:(lia) Hout)
    as [Hl Hs].
  rewrite Hs in Hl. split; [exact Hout|]. split; [exact Hl|].
  rewrite Hl, <- stride_padded_iff, stride_eq. split; intros H; nia.
Qed.

Lemma file_length_and_alignment_witness :
  exists out : list byte,
    toArrayBuffer 2 1 px_red_green = inr out /\
    Z.of_nat (length out) = 54 + 3 * 2 * 1 /\
    (Z.of_nat (length out) = 54 + padded_stride 2 * 1 <-> 2 mod 4 = 0).
Proof.
  apply (file_length_and_alignment 2 1 px_red_green).
  unfold valid_input. simpl. lia.
Defined.

(** X6.  The DIB header of a valid input whose pixel buffer is shorter than 2^32
    bytes: size 40, the width, the height, 1 plane, 24 bits per pixel, no
    compression, a pixel array of [3 * w * h] bytes, 11811 pixels per metre
    both ways, and two zero colour counts. *)
Theorem dib_header_written (w h : Z) (data : list byte) :
  valid_input w h data -> Z.of_nat (length data) < 2 ^ 32 ->
  exists out : list byte,
    toArrayBuffer w h data = inr out /\
    getUint32 14 out = Some 40 /\
    getUint32 18 out = Some w /\
    getUint32 22 out = Some h /\
    getUint16 26 out = Some 1 /\
    getUint16 28 out = Some 24 /\
    getUint32 30 out = Some 0 /\
    getUint32 34 out = Some (3 * w * h) /\
    getUint32 38 out = Some 11811 /\
    getUint32 42 out = Some 11811 /\
    getUint32 46 out = Some 0 /\
    getUint32 50 out = Some 0.
Proof.
  intros Hvalid Hsz.
  pose proof Hvalid as (Hw & Hh & Hlen).
  assert (Hwh : w * h < 2 ^ 30) by lia.
  destruct (dib_header_fields w h data Hvalid) as (out & Hout & Hf).
  - nia.
  - nia.
  - rewrite stride_eq. lia.
  - exists out. rewrite stride_eq in Hf.
    split; [exact Hout|exact Hf].
Qed.

Lemma dib_header_written_witness :
  exists out : list byte,
    toArrayBuffer 2 1 px_red_green = inr out /\
    getUint32 14 out = Some 40 /\
    getUint32 18 out = Some 2 /\
    getUint32 22 out = Some 1 /\
    getUint16 26 out = Some 1 /\
    getUint16 28 out = Some 24 /\
    getUint32 30 out = Some 0 /\
    getUint32 34 out = Some (3 * 2 * 1) /\
    getUint32 38 out = Some 11811 /\
    getUint32 42 out = Some 11811 /\
    getUint32 46 out = Some 0 /\
    getUint32 50 out = Some 0.
Proof.
  apply (dib_header_written 2 1 px_red_green).
  - unfold valid_input. simpl. lia.
  - simpl. lia.
Defined.

(** X7.  The sizes the headers declare add up: for a valid input whose pixel
    buffer is shorter than 2^32 bytes, the file length at offset 2 is the
    pixel offset at offset 10 plus the pixel array size at offset 34, the
    pixel offset is 14 plus the DIB header size at offset 14, and the bytes
    after the pixel offset are as many as the pixel array size says. *)
Theorem header_sizes_add_up (w h : Z) (data : list byte) :
  valid_input w h data -> Z.of_nat (length data) < 2 ^ 32 ->
  exists (out : list byte) (size offset dib bitmap_size : Z),
    toArrayBuffer w h data = inr out /\
    getUint32 2 out = Some size /\
    getUint32 10 out = Some offset /\
    getUint32 14 out = Some dib /\
    getUint32 34 out = Some bitmap_size /\
    size = offset + bitmap_size /\
    offset = 14 + dib /\
    Z.of_nat (length (drop (Z.to_nat offset) out)) = bitmap_size.
Proof.
  intros Hvalid Hsz.
  pose proof (valid_input_aligned _ _ _ Hvalid) as Hal.
  destruct Hvalid as (Hw & Hh & Hlen).
  assert (0 <= 3 * w * h < 2 ^ 32 - 54) by nia.
  exists (bmp_header w h ++ bitmap data w h),
         (54 + stride w * h), 54, 40, (stride w * h).
  pose proof (header_fields w h (bitmap data w h)) as Hf. cbv zeta in Hf.
  destruct Hf as (_ & _ & H2 & _ & H10 & H14 & _ & _ & _ & _ & _ & H34 & _).
  rewrite Z.mod_small in H2 by (rewrite stride_eq; lia).
  rewrite Z.mod_small in H34 by (rewrite stride_eq; lia).
  repeat apply conj; try assumption; try reflexivity.
  - apply toArrayBuffer_ok; lia.
  - change (Z.to_nat 54) with (length (bmp_header w h)).
    rewrite drop_app_length, length_bitmap, stride_eq by lia. reflexivity.
Qed.

Lemma header_sizes_add_up_witness :
  exists (out : list byte) (size offset dib bitmap_size : Z),
    toArrayBuffer 2 1 px_red_green = inr out /\
    getUint32 2 out = Some size /\
    getUint32 10 out = Some offset /\
    getUint32 14 out = Some dib /\
    getUint32 34 out = Some bitmap_size /\
    size = offset + bitmap_size /\
    offset = 14 + dib /\
    Z.of_nat (length (drop (Z.to_nat offset) out)) = bitmap_size.
Proof.
  apply (header_sizes_add_up 2 1 px_red_green).
  - unfold valid_input. simpl. lia.
  - simpl. lia.
Defined.



(** ** Strings of bytes and base64 *)

Lemma str_append_assoc (a b c : String.string) :
  String.append (String.append a b) c = String.append a (String.append b c).
Proof.
  induction a as [|x a IH]; simpl; [reflexivity|]. rewrite IH. reflexivity.
Qed.

Lemma str_length_append (a b : String.string) :
  String.length (String.append a b) = (String.length a + String.length b)%nat.
Proof.
  induction a as [|x a IH]; simpl; [reflexivity|]. rewrite IH. reflexivity.
Qed.

Lemma str_length_of_bytes (l : list byte) :
  String.length (String.string_of_list_byte l) = length l.
Proof.
  induction l as [|b l IH]; [reflexivity|].
  change (String.string_of_list_byte (b :: l))
    with (String.String (Ascii.ascii_of_byte b) (String.string_of_list_byte l)).
  simpl. rewrite IH. reflexivity.
Qed.

(** The loop of [toDataURL] appends one character a byte, in order. *)
Lemma binary_string_spec (buffer : list byte) (n : nat) :
  forall (i : nat) (bs : String.string),
    (i + n <= length buffer)%nat ->
    binary_string n i buffer bs
    = String.append bs (String.string_of_list_byte (take n (drop i buffer))).
Proof.
  induction n as [|n IH]; intros i bs Hi.
  - simpl. induction bs as [|x bs IHbs]; simpl; [reflexivity|].
    rewrite <- IHbs. reflexivity.
  - destruct (lookup_lt_is_Some_2 buffer i ltac:(lia)) as [b Hb].
    cbn [binary_string]. rewrite Hb, IH by lia.
    rewrite str_append_assoc. rewrite (drop_S _ _ _ Hb). reflexivity.
Qed.

Lemma char_code_range (a : Ascii.ascii) : 0 <= char_code a < 256.
Proof.
  unfold char_code. pose proof (Ascii.N_ascii_bounded a). lia.
Qed.

Lemma char_of_char_code (a : Ascii.ascii) : char_of_code (char_code a) = a.
Proof.
  unfold char_of_code, char_code. rewrite N2Z.id.
  apply Ascii.ascii_N_embedding.
Qed.

Lemma b64_digit_nat (k : nat) :
  (k < 64)%nat ->
  b64_index (b64_char (Z.of_nat k)) = Some (Z.of_nat k) /\
  Ascii.eqb (b64_char (Z.of_nat k)) "="%char = false.
Proof.
  intros Hk.
  do 64 (destruct k as [|k]; [vm_compute; split; reflexivity|]).
  lia.
Qed.

Lemma b64_index_char (n : Z) :
  0 <= n < 64 -> b64_index (b64_char n) = Some n.
Proof.
  intros Hn. rewrite <- (Z2Nat.id n) by lia.
  apply b64_digit_nat. lia.
Qed.

Lemma b64_char_not_pad (n : Z) :
  0 <= n < 64 -> Ascii.eqb (b64_char n) "="%char = false.
Proof.
  intros Hn. rewrite <- (Z2Nat.id n) by lia.
  apply b64_digit_nat. lia.
Qed.

Ltac b64_range :=
  repeat match goal with
         | a : Ascii.ascii |- _ =>
             lazymatch goal with
             | H : 0 <= char_code a < 256 |- _ => fail
             | _ => pose proof (char_code_range a)
             end
         end;
  Z.div_mod_to_equations; lia.

Lemma b64_decode_group (a b c : Ascii.ascii) (rest : String.string) :
  b64_decode (btoa (String.String a (String.String b (String.String c rest))))
  = match b64_decode (btoa rest) with
    | Some tl => Some (String.String a (String.String b (String.String c tl)))
    | None => None
    end.
Proof.
  cbn [btoa b64_decode].
  rewrite !b64_index_char by b64_range.
  rewrite !b64_char_not_pad by b64_range.
  replace (char_code a / 4 * 4 + (char_code a mod 4 * 16 + char_code b / 16) / 16)
    with (char_code a) by b64_range.
  replace ((char_code a mod 4 * 16 + char_code b / 16) mod 16 * 16
           + (char_code b mod 16 * 4 + char_code c / 64) / 4)
    with (char_code b) by b64_range.
  replace ((char_code b mod 16 * 4 + char_code c / 64) mod 4 * 64
           + char_code c mod 64)
    with (char_code c) by b64_range.
  rewrite !char_of_char_code. reflexivity.
Qed.

Lemma b64_decode_one (a : Ascii.ascii) :
  b64_decode (btoa (String.String a String.EmptyString))
  = Some (String.String a String.EmptyString).
Proof.
  cbn [btoa b64_decode].
  rewrite !b64_index_char by b64_range.
  change (Ascii.eqb "="%char "="%char) with true. cbv iota.
  replace (char_code a / 4 * 4 + char_code a mod 4 * 16 / 16)
    with (char_code a) by b64_range.
  rewrite char_of_char_code. reflexivity.
Qed.

Lemma b64_decode_two (a b : Ascii.ascii) :
  b64_decode (btoa (String.String a (String.String b String.EmptyString)))
  = Some (String.String a (String.String b String.EmptyString)).
Proof.
  cbn [btoa b64_decode].
  rewrite !b64_index_char by b64_range.
  rewrite !b64_char_not_pad by b64_range.
  change (Ascii.eqb "="%char "="%char) with true. cbv iota.
  replace (char_code a / 4 * 4 + (char_code a mod 4 * 16 + char_code b / 16) / 16)
    with (char_code a) by b64_range.
  replace ((char_code a mod 4 * 16 + char_code b / 16) mod 16 * 16
           + char_code b mod 16 * 4 / 4)
    with (char_code b) by b64_range.
  rewrite !char_of_char_code. reflexivity.
Qed.

(** Base64 is read back to the string it was made from. *)
Lemma b64_decode_btoa (bs : String.string) : b64_decode (btoa bs) = Some bs.
Proof.
  assert (H : forall (n : nat) (t : String.string),
             (String.length t < n)%nat -> b64_decode (btoa t) = Some t).
  { induction n as [|n IH]; intros t Ht; [lia|].
    destruct t as [|a [|b [|c rest]]].
    - reflexivity.
    - apply b64_decode_one.
    - apply b64_decode_two.
    - rewrite b64_decode_group, IH by (simpl in Ht; lia). reflexivity. }
  apply (H (S (String.length bs))). lia.
Qed.

Lemma btoa_whole_groups (m : nat) :
  forall bs : String.string,
    String.length bs = (3 * m)%nat ->
    String.length (btoa bs) = (4 * m)%nat /\ all_digits (btoa bs) = true.
Proof.
  induction m as [|m IH]; intros bs Hlen.
  - destruct bs; [split; reflexivity|discriminate].
  - destruct bs as [|a [|b [|c rest]]]; try (simpl in Hlen; lia).
    destruct (IH rest ltac:(simpl in Hlen; lia)) as [Hl Hd].
    cbn [btoa String.length all_digits].
    rewrite !b64_index_char by b64_range.
    rewrite Hl, Hd. split; [lia|reflexivity].
Qed.

(** ** [toBlob] and [toDataURL] *)

Lemma binary_string_whole (buffer : list byte) :
  binary_string (length buffer) 0 buffer String.EmptyString
  = String.string_of_list_byte buffer.
Proof.
  rewrite binary_string_spec by lia.
  rewrite drop_0, take_ge by lia. reflexivity.
Qed.

Lemma toDataURL_ok (w h : Z) (data out : list byte) :
  toArrayBuffer w h data = inr out ->
  toDataURL w h data
  = inr (String.append "data:image/bmp;base64,"%string
           (btoa (String.string_of_list_byte out))).
Proof.
  intros Hout. unfold toDataURL. rewrite Hout, binary_string_whole.
  reflexivity.
Qed.

(** X12.  The blob of a valid input is of type [image/bmp] and holds the bytes of
    [toArrayBuffer]: [54 + 3 * w * h] of them, the first two [BM]. *)
Theorem toBlob_of_valid_input (w h : Z) (data : list byte) :
  valid_input w h data ->
  exists blob : Blob,
    toBlob w h data = inr blob /\
    blob_type blob = "image/bmp"%string /\
    toArrayBuffer w h data = inr (blob_bytes blob) /\
    Z.of_nat (length (blob_bytes blob)) = 54 + 3 * w * h /\
    take 2 (blob_bytes blob) = [x42; x4d].
Proof.
  intros Hvalid.
  pose proof (valid_input_aligned _ _ _ Hvalid) as Hal.
  destruct Hvalid as (Hw & Hh & Hlen).
  assert (Hout : toArrayBuffer w h data = inr (bmp_header w h ++ bitmap data w h))
    by (apply toArrayBuffer_ok; lia).
  exists (mkBlob (bmp_header w h ++ bitmap data w h) "image/bmp"%string).
  unfold toBlob. rewrite Hout. cbn [blob_bytes blob_type].
  repeat apply conj; try reflexivity.
  rewrite length_app, length_bmp_header, Nat2Z.inj_add.
  rewrite length_bitmap by lia. lia.
Qed.

Lemma toBlob_of_valid_input_witness :
  exists blob : Blob,
    toBlob 1 1 px_red = inr blob /\
    blob_type blob = "image/bmp"%string /\
    toArrayBuffer 1 1 px_red = inr (blob_bytes blob) /\
    Z.of_nat (length (blob_bytes blob)) = 54 + 3 * 1 * 1 /\
    take 2 (blob_bytes blob) = [x42; x4d].
Proof.
  apply (toBlob_of_valid_input 1 1 px_red).
  unfold valid_input. simpl. lia.
Defined.

(** X13.  The data URI carries the file: whenever [toArrayBuffer] returns a
    buffer, [toDataURL] returns the prefix [data:image/bmp;base64,] and a
    base64 text that is read back to exactly the bytes of that buffer. *)
Theorem toDataURL_carries_the_file (w h : Z) (data out : list byte) :
  toArrayBuffer w h data = inr out ->
  exists payload : String.string,
    toDataURL w h data
    = inr (String.append "data:image/bmp;base64,"%string payload) /\
    option_map String.list_byte_of_string (b64_decode payload) = Some out.
Proof.
  intros Hout. exists (btoa (String.string_of_list_byte out)).
  split; [apply toDataURL_ok; exact Hout|].
  rewrite b64_decode_btoa. cbn [option_map].
  rewrite String.list_byte_of_string_of_list_byte. reflexivity.
Qed.

Lemma toDataURL_carries_the_file_witness :
  exists payload : String.string,
    toDataURL 1 1 px_red
    = inr (String.append "data:image/bmp;base64,"%string payload) /\
    option_map String.list_byte_of_string (b64_decode payload)
    = Some (bmp_header 1 1 ++ [x00; x00; xff]).
Proof.
  apply (toDataURL_carries_the_file 1 1 px_red).
  vm_compute. reflexivity.
Defined.

(** X14.  The data URI of a valid input is the 22 characters of the prefix and
    [72 + 4 * w * h] base64 digits: the file being a multiple of 3 bytes
    long, the text has no [=] padding. *)
Theorem toDataURL_length_no_padding (w h : Z) (data : list byte) :
  valid_input w h data ->
  exists payload : String.string,
    toDataURL w h data
    = inr (String.append "data:image/bmp;base64,"%string payload) /\
    Z.of_nat (String.length payload) = 72 + 4 * w * h /\
    all_digits payload = true /\
    Z.of_nat (String.length
                (String.append "data:image/bmp;base64,"%string payload))
    = 94 + 4 * w * h.
Proof.
  intros Hvalid.
  pose proof (valid_input_aligned _ _ _ Hvalid) as Hal.
  destruct Hvalid as (Hw & Hh & Hlen).
  set (out := bmp_header w h ++ bitmap data w h).
  assert (Hout : toArrayBuffer w h data = inr out)
    by (apply toArrayBuffer_ok; lia).
  assert (Hl : String.length (String.string_of_list_byte out)
               = (3 * Z.to_nat (18 + w * h))%nat).
  { rewrite str_length_of_bytes. subst out. apply Nat2Z.inj.
    rewrite length_app, length_bmp_header, Nat2Z.inj_add.
    rewrite length_bitmap by lia. nia. }
  destruct (btoa_whole_groups _ _ Hl) as [Hlen4 Hdigits].
  exists (btoa (String.string_of_list_byte out)).
  split; [apply toDataURL_ok; exact Hout|].
  split; [rewrite Hlen4; nia|].
  split; [exact Hdigits|].
  rewrite str_length_append, Hlen4. cbn [String.length]. nia.
Qed.

Lemma toDataURL_length_no_padding_witness :
  exists payload : String.string,
    toDataURL 1 1 px_red
    = inr (String.append "data:image/bmp;base64,"%string payload) /\
    Z.of_nat (String.length payload) = 72 + 4 * 1 * 1 /\
    all_digits payload = true /\
    Z.of_nat (String.length
                (String.append "data:image/bmp;base64,"%string payload))
    = 94 + 4 * 1 * 1.
Proof.
  apply (toDataURL_length_no_padding 1 1 px_red).
  unfold valid_input. simpl. lia.
Defined.
